(** * Jira epic collector (plugins/jira/tasks/epic_collector.go)

    A shallow embedding of [CollectEpics], of the two closures it hands to
    the API collector ([Query] and [ResponseParser]) and of
    [GetEpicKeysIterator], together with the properties the specification
    states about them. *)

From Stdlib Require Import ZArith NArith String Ascii List Lia Bool.
From stdpp Require Import base tactics option list gmap strings pretty.

Local Open Scope string_scope.
Local Open Scope Z_scope.

(** ** Go values *)

Module Go.

(** Addresses of heap cells. *)
Definition loc := positive.

(** What a Go program can find behind an [interface{}]: the dynamic type
    is the constructor.  Only the types that can reach the collector are
    listed; [VStringPtr None] is a nil [*string], [VNil] the nil
    interface. *)
#[warnings="-register-all"]
Inductive Value :=
| VNil
| VBool (b : bool)
| VInt (n : Z)
| VString (s : string)
| VStringPtr (p : option loc)
| VStringSlice (l : list string)
| VSlice (l : list Value).

(** Run-time panics of the operations used by this file. *)
Inductive Panic :=
| TypeAssertionFailed       (* x.(T) on a value whose dynamic type is not T *)
| NilDereference.           (* *p or p.f on a nil pointer *)

(** Result of running a piece of Go code that may panic. *)
Inductive Outcome (A : Type) :=
| Returned (a : A)
| Panicked (p : Panic).
Global Arguments Returned {A} a.
Global Arguments Panicked {A} p.

(** [strings.Join(elems, sep)]. *)
Fixpoint Join (elems : list string) (sep : string) : string :=
  match elems with
  | [] => ""
  | [e] => e
  | e :: rest => e +:+ sep +:+ Join rest sep
  end.

(** [fmt.Sprintf("%v", n)] for an [int]: the decimal numeral, with a
    leading minus sign for negative numbers. *)
Definition FormatInt (n : Z) : string := pretty n.

(** [url.Values] is [map[string][]string]. *)
Abbreviation Values := (gmap string (list string)).

(** [v.Set(key, value)] replaces whatever [key] held by the one value. *)
Definition Set_ (v : Values) (key value : string) : Values :=
  <[key := [value]]> v.

End Go.

(** ** time.Time and the layout "2006/01/02 15:04" *)

Module Time.

(** A [time.Time] as [Format] sees it for this layout: the fields that
    [t.Date()] and [t.Clock()] return in the time's own location. *)
Record t := mk {
  Year : Z;
  Month : Z;
  Day : Z;
  Hour : Z;
  Minute : Z
}.

Fixpoint zeros (n : nat) : string :=
  match n with
  | O => ""
  | S n => String "0" (zeros n)
  end.

(** [appendInt(b, x, width)] of package time: sign, then the decimal
    digits of |x| padded with zeros on the left up to [width]. *)
Definition appendInt (x : Z) (width : nat) : string :=
  let digits := pretty (Z.abs x) in
  (if x <? 0 then "-" else "") +:+
  zeros (width - String.length digits) +:+ digits.

(** [t.Format("2006/01/02 15:04")]: stdLongYear "/" stdZeroMonth "/"
    stdZeroDay " " stdHour ":" stdZeroMinute. *)
Definition Format (x : t) : string :=
  appendInt (Year x) 4 +:+ "/" +:+ appendInt (Month x) 2 +:+ "/" +:+
  appendInt (Day x) 2 +:+ " " +:+ appendInt (Hour x) 2 +:+ ":" +:+
  appendInt (Minute x) 2.

End Time.

(** ** errors.Error *)

Module errors.

(** Plain Go errors as the collaborators raise them. *)
Inductive GoError :=
| IoError (msg : string)            (* a failed Read on a response body *)
| DbError (msg : string)            (* a failed database call *)
| SyntaxError                       (* json: malformed input *)
| UnmarshalTypeError (value : string). (* json: value of the wrong kind *)

(** [errors.Error]: a Go error taken over as it is ([Convert]), or one
    wrapped with a message under an error type ([Default.Wrap]). *)
Inductive Error :=
| Convert (e : GoError)
| DefaultWrap (e : GoError) (msg : string)
| Raised (msg : string).            (* an Error made by the helper package *)

End errors.

(** ** encoding/json: the scanner *)

Module json.

(** [json.RawMessage]: the bytes of one encoded value. *)
Definition RawMessage := string.

Definition byte_of (c : ascii) : N := N_of_ascii c.

(** The double quote. *)
Definition dquote : ascii := "034"%char.

Definition between (lo hi c : ascii) : bool :=
  ((byte_of lo <=? byte_of c) && (byte_of c <=? byte_of hi))%N.

Definition isSpace (c : ascii) : bool :=
  match c with
  | " "%char | "009"%char | "013"%char | "010"%char => true
  | _ => false
  end.

Definition isDigit (c : ascii) : bool := between "0" "9" c.

Definition isHex (c : ascii) : bool :=
  between "0" "9" c || between "a" "f" c || between "A" "F" c.

(** The step functions of scanner.go, one constructor each. *)
Inductive Step :=
| stateBeginValue | stateBeginValueOrEmpty
| stateBeginString | stateBeginStringOrEmpty
| stateEndValue | stateEndTop
| stateInString | stateInStringEsc
| stateInStringEscU | stateInStringEscU1
| stateInStringEscU12 | stateInStringEscU123
| stateNeg | state1 | state0 | stateDot | stateDot0
| stateE | stateESign | stateE0
| stateT | stateTr | stateTru
| stateF | stateFa | stateFal | stateFals
| stateN | stateNu | stateNul
| stateError.

Inductive ParseState := parseObjectKey | parseObjectValue | parseArrayValue.

(** The scanner: the current step function, the stack of open
    containers and whether a top-level value has been completed. *)
Record scanner := mkScanner {
  step : Step;
  parseState : list ParseState;   (* innermost first *)
  endTop : bool
}.

Definition maxNestingDepth : N := 10000.

Definition reset : scanner := mkScanner stateBeginValue [] false.

Definition error (s : scanner) : scanner :=
  mkScanner stateError (parseState s) (endTop s).

Definition goto (s : scanner) (st : Step) : scanner :=
  mkScanner st (parseState s) (endTop s).

Definition pushParseState (s : scanner) (ps : ParseState) (next : Step)
  : scanner :=
  let stack := ps :: parseState s in
  if (N.of_nat (length stack) <=? maxNestingDepth)%N
  then mkScanner next stack (endTop s)
  else mkScanner stateError stack (endTop s).

Definition popParseState (s : scanner) : scanner :=
  match parseState s with
  | [] => error s
  | _ :: [] => mkScanner stateEndTop [] true
  | _ :: rest => mkScanner stateEndValue rest (endTop s)
  end.

Definition replaceTop (s : scanner) (ps : ParseState) : scanner :=
  match parseState s with
  | [] => s
  | _ :: rest => mkScanner (step s) (ps :: rest) (endTop s)
  end.

(** [stateEndTop]: only space may follow the top-level value. *)
Definition doEndTop (s : scanner) (c : ascii) : scanner :=
  if isSpace c then goto s stateEndTop else error s.

(** [stateEndValue]: after a value, inside or outside a container. *)
Definition doEndValue (s : scanner) (c : ascii) : scanner :=
  match parseState s with
  | [] => doEndTop (mkScanner stateEndTop [] true) c
  | ps :: _ =>
      if isSpace c then goto s stateEndValue else
      match ps with
      | parseObjectKey =>
          if Ascii.eqb c ":" then goto (replaceTop s parseObjectValue) stateBeginValue
          else error s
      | parseObjectValue =>
          if Ascii.eqb c "," then goto (replaceTop s parseObjectKey) stateBeginString
          else if Ascii.eqb c "}" then popParseState s
          else error s
      | parseArrayValue =>
          if Ascii.eqb c "," then goto s stateBeginValue
          else if Ascii.eqb c "]" then popParseState s
          else error s
      end
  end.

Definition doBeginValue (s : scanner) (c : ascii) : scanner :=
  if isSpace c then s else
  match c with
  | "{"%char => pushParseState s parseObjectKey stateBeginStringOrEmpty
  | "["%char => pushParseState s parseArrayValue stateBeginValueOrEmpty
  | "034"%char => goto s stateInString
  | "-"%char => goto s stateNeg
  | "0"%char => goto s state0
  | "t"%char => goto s stateT
  | "f"%char => goto s stateF
  | "n"%char => goto s stateN
  | _ => if between "1" "9" c then goto s state1 else error s
  end.

Definition doBeginString (s : scanner) (c : ascii) : scanner :=
  if isSpace c then s
  else if Ascii.eqb c dquote then goto s stateInString
  else error s.

Definition expect (s : scanner) (c want : ascii) (next : Step) : scanner :=
  if Ascii.eqb c want then goto s next else error s.

(** One call [s.step(s, c)]. *)
Definition scan_step (s : scanner) (c : ascii) : scanner :=
  match step s with
  | stateError => s
  | stateBeginValue => doBeginValue s c
  | stateBeginValueOrEmpty =>
      if isSpace c then s
      else if Ascii.eqb c "]" then doEndValue s c
      else doBeginValue s c
  | stateBeginStringOrEmpty =>
      if isSpace c then s
      else if Ascii.eqb c "}"
           then doEndValue (replaceTop s parseObjectValue) c
      else doBeginString s c
  | stateBeginString => doBeginString s c
  | stateEndValue => doEndValue s c
  | stateEndTop => doEndTop s c
  | stateInString =>
      if Ascii.eqb c dquote then goto s stateEndValue
      else if Ascii.eqb c "\" then goto s stateInStringEsc
      else if (byte_of c <? 32)%N then error s
      else s
  | stateInStringEsc =>
      match c with
      | "b"%char | "f"%char | "n"%char | "r"%char | "t"%char
      | "\"%char | "/"%char | "034"%char => goto s stateInString
      | "u"%char => goto s stateInStringEscU
      | _ => error s
      end
  | stateInStringEscU => if isHex c then goto s stateInStringEscU1 else error s
  | stateInStringEscU1 => if isHex c then goto s stateInStringEscU12 else error s
  | stateInStringEscU12 => if isHex c then goto s stateInStringEscU123 else error s
  | stateInStringEscU123 => if isHex c then goto s stateInString else error s
  | stateNeg =>
      if Ascii.eqb c "0" then goto s state0
      else if between "1" "9" c then goto s state1
      else error s
  | state1 =>
      if isDigit c then s
      else if Ascii.eqb c "." then goto s stateDot
      else if Ascii.eqb c "e" || Ascii.eqb c "E" then goto s stateE
      else doEndValue s c
  | state0 =>
      if Ascii.eqb c "." then goto s stateDot
      else if Ascii.eqb c "e" || Ascii.eqb c "E" then goto s stateE
      else doEndValue s c
  | stateDot => if isDigit c then goto s stateDot0 else error s
  | stateDot0 =>
      if isDigit c then s
      else if Ascii.eqb c "e" || Ascii.eqb c "E" then goto s stateE
      else doEndValue s c
  | stateE =>
      if Ascii.eqb c "+" || Ascii.eqb c "-" then goto s stateESign
      else if isDigit c then goto s stateE0
      else error s
  | stateESign => if isDigit c then goto s stateE0 else error s
  | stateE0 => if isDigit c then s else doEndValue s c
  | stateT => expect s c "r" stateTr
  | stateTr => expect s c "u" stateTru
  | stateTru => expect s c "e" stateEndValue
  | stateF => expect s c "a" stateFa
  | stateFa => expect s c "l" stateFal
  | stateFal => expect s c "s" stateFals
  | stateFals => expect s c "e" stateEndValue
  | stateN => expect s c "u" stateNu
  | stateNu => expect s c "l" stateNul
  | stateNul => expect s c "l" stateEndValue
  end.

Fixpoint scan (s : scanner) (data : string) : scanner :=
  match data with
  | EmptyString => s
  | String c rest => scan (scan_step s c) rest
  end.

(** [s.eof()]: true when the input seen so far is one complete value. *)
Definition eof (s : scanner) : bool :=
  match step s with
  | stateError => false
  | _ => if endTop s then true
         else let s' := scan_step s " " in
              match step s' with
              | stateError => false
              | _ => endTop s'
              end
  end.

(** [checkValid(data, scan) == nil]; this is [json.Valid]. *)
Definition Valid (data : string) : bool := eof (scan reset data).

(** *** Walking a valid text *)

(** The kind of an encoded value, which its first byte decides. *)
Inductive Kind := KNull | KBool | KNumber | KString | KArray | KObject.

Definition kindOf (raw : string) : Kind :=
  match raw with
  | String "{" _ => KObject
  | String "[" _ => KArray
  | String "034" _ => KString
  | String "n" _ => KNull
  | String "t" _ | String "f" _ => KBool
  | _ => KNumber
  end.

(** The [Value] field of an [UnmarshalTypeError]. *)
Definition kindName (k : Kind) : string :=
  match k with
  | KNull => "null" | KBool => "bool" | KNumber => "number"
  | KString => "string" | KArray => "array" | KObject => "object"
  end.

Fixpoint skipSpace (s : string) : string :=
  match s with
  | String c rest => if isSpace c then skipSpace rest else s
  | EmptyString => EmptyString
  end.

Definition snoc (s : string) (c : ascii) : string := s +:+ String c "".

(** The decoder's walk over the inside of a container: the encoded
    values between the commas of the outermost level, each from its
    first to its last byte (space around them is not theirs), up to the
    bracket that closes the container. *)
Fixpoint split (data : string) (depth : nat) (inStr esc : bool)
    (cur : string) (acc : list string) : list string :=
  match data with
  | EmptyString => acc
  | String c rest =>
      if inStr then
        if esc then split rest depth true false (snoc cur c) acc
        else if Ascii.eqb c "\" then split rest depth true true (snoc cur c) acc
        else if Ascii.eqb c dquote then split rest depth false false (snoc cur c) acc
        else split rest depth true false (snoc cur c) acc
      else if Ascii.eqb c dquote then split rest depth true false (snoc cur c) acc
      else if Ascii.eqb c "[" || Ascii.eqb c "{"
           then split rest (S depth) false false (snoc cur c) acc
      else if Ascii.eqb c "]" || Ascii.eqb c "}" then
        match depth with
        | O => match cur with
               | EmptyString => acc
               | _ => (acc ++ [cur])%list
               end
        | S d => split rest d false false (snoc cur c) acc
        end
      else match depth with
           | O => if Ascii.eqb c "," then split rest O false false "" (acc ++ [cur])
                  else if isSpace c then split rest O false false cur acc
                  else split rest O false false (snoc cur c) acc
           | S _ => split rest depth false false (snoc cur c) acc
           end
  end.

Definition items (container : string) : list string :=
  match container with
  | String _ body => split body O false false "" []
  | EmptyString => []
  end.

(** Whether a text, read from inside a container, is one whole value of
    its outermost level: brackets opened in it are closed in it, strings
    begun in it end in it, and there is no comma or space outside them at
    the outermost level. *)
Fixpoint encloses (e : string) (depth : nat) (inStr esc : bool) : bool :=
  match e with
  | EmptyString => match depth with O => negb inStr | S _ => false end
  | String c rest =>
      if inStr then
        if esc then encloses rest depth true false
        else if Ascii.eqb c "\" then encloses rest depth true true
        else if Ascii.eqb c dquote then encloses rest depth false false
        else encloses rest depth true false
      else if Ascii.eqb c dquote then encloses rest depth true false
      else if Ascii.eqb c "[" || Ascii.eqb c "{"
           then encloses rest (S depth) false false
      else if Ascii.eqb c "]" || Ascii.eqb c "}" then
        match depth with
        | O => false
        | S d => encloses rest d false false
        end
      else match depth with
           | O => if Ascii.eqb c "," then false
                  else if isSpace c then false
                  else encloses rest O false false
           | S _ => encloses rest depth false false
           end
  end.

Definition element (e : string) : bool :=
  match e with
  | EmptyString => false
  | _ => encloses e O false false
  end.

(** A string literal, after its opening quote: what stands before the
    closing quote, and what follows it. *)
Fixpoint takeString (s : string) (esc : bool) : string * string :=
  match s with
  | EmptyString => ("", "")
  | String c rest =>
      if esc then let '(k, r) := takeString rest false in (String c k, r)
      else if Ascii.eqb c "\"
           then let '(k, r) := takeString rest true in (String c k, r)
      else if Ascii.eqb c dquote then ("", rest)
      else let '(k, r) := takeString rest false in (String c k, r)
  end.

(** One member of an object, as [items] returns it: the quoted key,
    the colon and the value. *)
Definition splitMember (m : string) : string * string :=
  match m with
  | String _ afterQuote =>
      let '(key, rest) := takeString afterQuote false in
      match rest with
      | String _ value => (key, value)
      | EmptyString => (key, "")
      end
  | EmptyString => ("", "")
  end.

(** *** Unquoting a key (unquoteBytes of decode.go) *)

Definition chr (n : N) : ascii := ascii_of_N n.

Definition hexval (c : ascii) : N :=
  if between "0" "9" c then byte_of c - 48
  else if between "a" "f" c then byte_of c - 97 + 10
  else if between "A" "F" c then byte_of c - 65 + 10
  else 0.

Definition u4 (a b c d : ascii) : N :=
  (hexval a * 4096 + hexval b * 256 + hexval c * 16 + hexval d)%N.

(** [utf8.EncodeRune] *)
Definition EncodeRune (r : N) : string :=
  (if r <=? 127 then String (chr r) ""
   else if r <=? 2047 then
     String (chr (192 + r / 64)) (String (chr (128 + r mod 64)) "")
   else if (55296 <=? r) && (r <=? 57343) || (1114111 <? r) then
     String (chr 239) (String (chr 191) (String (chr 189) ""))
   else if r <=? 65535 then
     String (chr (224 + r / 4096))
       (String (chr (128 + (r / 64) mod 64)) (String (chr (128 + r mod 64)) ""))
   else
     String (chr (240 + r / 262144))
       (String (chr (128 + (r / 4096) mod 64))
          (String (chr (128 + (r / 64) mod 64))
             (String (chr (128 + r mod 64)) ""))))%N.

Definition RuneError : N := 65533.

Definition inB (lo hi : N) (c : ascii) : bool :=
  ((lo <=? byte_of c) && (byte_of c <=? hi))%N.

Definition cont (c : ascii) : bool := inB 128 191 c.

(** [utf8.DecodeRune] on a text that starts with the non-ASCII byte
    [c0]: how many bytes a well-formed encoding takes there, 0 when
    there is none. *)
Definition utf8Size (c0 : ascii) (rest : string) : nat :=
  match rest with
  | String c1 rest1 =>
      if inB 194 223 c0 then (if cont c1 then 2 else 0)%nat
      else
        let second3 :=
          if inB 224 224 c0 then inB 160 191 c1
          else if inB 237 237 c0 then inB 128 159 c1
          else if inB 225 239 c0 then cont c1
          else false in
        let second4 :=
          if inB 240 240 c0 then inB 144 191 c1
          else if inB 241 243 c0 then cont c1
          else if inB 244 244 c0 then inB 128 143 c1
          else false in
        match rest1 with
        | String c2 rest2 =>
            if second3 && cont c2 then 3%nat
            else match rest2 with
                 | String c3 _ =>
                     if second4 && cont c2 && cont c3 then 4%nat else 0%nat
                 | EmptyString => 0%nat
                 end
        | EmptyString => 0%nat
        end
  | EmptyString => 0%nat
  end.

Definition isSurrogate (r : N) : bool := ((55296 <=? r) && (r <? 57344))%N.

(** [utf16.DecodeRune] *)
Definition DecodeSurrogates (r1 r2 : N) : N :=
  (if (55296 <=? r1) && (r1 <? 56320) && (56320 <=? r2) && (r2 <? 57344)
   then (r1 - 55296) * 1024 + (r2 - 56320) + 65536
   else RuneError)%N.

Definition simpleEscape (c : ascii) : ascii :=
  match c with
  | "b"%char => "008"%char
  | "f"%char => "012"%char
  | "n"%char => "010"%char
  | "r"%char => "013"%char
  | "t"%char => "009"%char
  | _ => c
  end.

(** The text a string literal stands for, from what is between its
    quotes: escapes resolved, every ill-formed UTF-8 byte replaced by
    U+FFFD. *)
Fixpoint unquote (s : string) : string :=
  match s with
  | EmptyString => EmptyString
  | String c rest =>
      if Ascii.eqb c "\" then
        match rest with
        | String e rest1 =>
            if Ascii.eqb e "u" then
              match rest1 with
              | String h1 (String h2 (String h3 (String h4 rest2))) =>
                  let rr := u4 h1 h2 h3 h4 in
                  if isSurrogate rr then
                    match rest2 with
                    | String b (String u (String g1 (String g2 (String g3 (String g4 rest3))))) =>
                        let dec := if Ascii.eqb b "\" && Ascii.eqb u "u"
                                   then DecodeSurrogates rr (u4 g1 g2 g3 g4)
                                   else RuneError in
                        if (dec =? RuneError)%N
                        then EncodeRune RuneError +:+ unquote rest2
                        else EncodeRune dec +:+ unquote rest3
                    | _ => EncodeRune RuneError +:+ unquote rest2
                    end
                  else EncodeRune rr +:+ unquote rest2
              | _ => EmptyString
              end
            else String (simpleEscape e) (unquote rest1)
        | EmptyString => EmptyString
        end
      else if (byte_of c <? 128)%N then String c (unquote rest)
      else
        match utf8Size c rest, rest with
        | 2%nat, String c1 rest1 => String c (String c1 (unquote rest1))
        | 3%nat, String c1 (String c2 rest2) =>
            String c (String c1 (String c2 (unquote rest2)))
        | 4%nat, String c1 (String c2 (String c3 rest3)) =>
            String c (String c1 (String c2 (String c3 (unquote rest3))))
        | _, _ => EncodeRune RuneError +:+ unquote rest
        end
  end.

(** *** Matching a key with a field name (fold.go) *)

Definition caseMask : N := 223.

Definition startsWith (p s : string) : bool := String.prefix p s.

Definition smallLongEss : string := EncodeRune 383.
Definition kelvin : string := EncodeRune 8490.

Fixpoint dropBytes (n : nat) (s : string) : string :=
  match n, s with
  | S n, String _ rest => dropBytes n rest
  | _, _ => s
  end.

(** [equalFoldRight(s, t)]: [s] is ASCII and holds an s or a k. *)
Fixpoint equalFoldRight (s t : string) : bool :=
  match s with
  | EmptyString => match t with EmptyString => true | _ => false end
  | String sb s' =>
      match t with
      | EmptyString => false
      | String tb t' =>
          if (byte_of tb <? 128)%N then
            if Ascii.eqb sb tb then equalFoldRight s' t'
            else
              let sbUpper := N.land (byte_of sb) caseMask in
              if ((65 <=? sbUpper) && (sbUpper <=? 90))%N
              then if (sbUpper =? N.land (byte_of tb) caseMask)%N
                   then equalFoldRight s' t' else false
              else false
          else
            match sb with
            | "s"%char | "S"%char =>
                if startsWith smallLongEss t
                then equalFoldRight s' (dropBytes 2 t) else false
            | "k"%char | "K"%char =>
                if startsWith kelvin t
                then equalFoldRight s' (dropBytes 3 t) else false
            | _ => false
            end
      end
  end.

(** Whether the key of a member selects the struct field whose name
    (from its tag) is [name]: exactly, or else up to case. *)
Definition matchesField (name key : string) : bool :=
  String.eqb key name || equalFoldRight name key.

(** *** Unmarshal into a struct with one field of type []RawMessage *)

(** [d.saveError]: the first error is the one reported. *)
Definition saveError (saved : option errors.GoError) (err : errors.GoError)
  : option errors.GoError :=
  match saved with
  | Some _ => saved
  | None => Some err
  end.

(** The decoder at work on the struct: the field's current value and the
    error saved so far. *)
Record decodeState := mkDecodeState {
  field : list RawMessage;
  savedError : option errors.GoError
}.

(** One member of the object.  A key that selects the field stores its
    value there: an array gives its elements, each as the bytes that
    encode it ([RawMessage] is an [Unmarshaler]); null gives the nil
    slice; any other kind is a type error, saved, and the field stays.
    Other members are skipped. *)
Definition storeMember (name : string) (d : decodeState) (m : string)
  : decodeState :=
  let '(key, value) := splitMember m in
  if matchesField name (unquote key) then
    match kindOf value with
    | KArray => mkDecodeState (items value) (savedError d)
    | KNull => mkDecodeState [] (savedError d)
    | k => mkDecodeState (field d)
             (saveError (savedError d) (errors.UnmarshalTypeError (kindName k)))
    end
  else d.

(** [json.Unmarshal(data, &v)] where [v] is a struct whose one field, of
    type [[]json.RawMessage], is tagged [name]; the result is the field
    and the error returned. *)
Definition Unmarshal (data : string) (name : string) (v : list RawMessage)
  : list RawMessage * option errors.GoError :=
  if Valid data then
    let raw := skipSpace data in
    match kindOf raw with
    | KObject =>
        let d := fold_left (storeMember name) (items raw) (mkDecodeState v None) in
        (field d, savedError d)
    | KNull => (v, None)
    | k => (v, Some (errors.UnmarshalTypeError (kindName k)))
    end
  else (v, Some errors.SyntaxError).

(** Sample texts are written with an apostrophe where the JSON text has a
    double quote. *)
Fixpoint text (s : string) : string :=
  match s with
  | EmptyString => EmptyString
  | String c rest => String (if Ascii.eqb c "'" then dquote else c) (text rest)
  end.

End json.

(** ** io.ReadAll and http.Response *)

Module io.

(** What a [Read] loop sees of an [io.Reader]: chunks of bytes, then
    the end of the stream or an error. *)
Inductive Reader :=
| EOF
| Chunk (data : string) (next : Reader)
| Failure (err : errors.GoError).

(** [io.ReadAll(r)]: the bytes read until EOF, and no error; or the
    bytes read before a failed [Read], and its error. *)
Fixpoint ReadAll (r : Reader) : string * option errors.GoError :=
  match r with
  | EOF => ("", None)
  | Chunk data next =>
      let '(rest, err) := ReadAll next in (data +:+ rest, err)
  | Failure err => ("", Some err)
  end.

End io.

Module http.

Record Response := mkResponse {
  StatusCode : Z;
  Body : io.Reader
}.

End http.

(** ** The part of package helper that the closures read *)

Module helper.

(** [helper.Pager]. *)
Record Pager := mkPager {
  Page : Z;
  Skip : Z;
  Size : Z
}.

(** [helper.RequestData]: [Pager] is a [*Pager], [Input] an
    [interface{}]. *)
Record RequestData := mkRequestData {
  Pager_ : option Go.loc;
  Input : Go.Value
}.

End helper.

(** ** Memory and the monad of code that reads it and may panic *)

(** The mutable state a closure of [CollectEpics] can reach: the captured
    local [jql], the string cells the input batch points to and the
    [Pager] cells. *)
Record State := mkState {
  jql : string;
  strings : Go.loc → string;
  pagers : Go.loc → helper.Pager
}.

Definition M (A : Type) : Type := State → Go.Outcome A * State.

Global Instance M_ret : MRet M := λ A a st, (Go.Returned a, st).

Global Instance M_bind : MBind M := λ A B k m st,
  match m st with
  | (Go.Returned a, st') => k a st'
  | (Go.Panicked p, st') => (Go.Panicked p, st')
  end.

Definition panic {A} (p : Go.Panic) : M A := λ st, (Go.Panicked p, st).

Definition read {A} (f : State → A) : M A := λ st, (Go.Returned (f st), st).

(** [v.([]interface{})] *)
Definition assert_slice (v : Go.Value) : M (list Go.Value) :=
  match v with
  | Go.VSlice l => mret l
  | _ => panic Go.TypeAssertionFailed
  end.

(** [v.( *string)] *)
Definition assert_string_ptr (v : Go.Value) : M (option Go.loc) :=
  match v with
  | Go.VStringPtr p => mret p
  | _ => panic Go.TypeAssertionFailed
  end.

(** [*p] for a [*string] *)
Definition deref_string (p : option Go.loc) : M string :=
  match p with
  | Some l => read (λ st, strings st l)
  | None => panic Go.NilDereference
  end.

(** [p.f] for a [*Pager] *)
Definition deref_pager (p : option Go.loc) : M helper.Pager :=
  match p with
  | Some l => read (λ st, pagers st l)
  | None => panic Go.NilDereference
  end.

(** ** CollectEpics: the jql clause and the Query closure *)

Definition RAW_EPIC_TABLE : string := "jira_api_epics".

(** Lines 56-61: the local [jql] of [CollectEpics] once [since] has been
    looked at. *)
Definition jql_clause (since : option Time.t) : string :=
  let jql := "ORDER BY created ASC" in
  match since with
  | Some t => "updated >= '" +:+ Time.Format t +:+ "' " +:+ jql
  | None => jql
  end.

(** Lines 78-80: the loop that fills [epicKeys]. *)
Fixpoint range_input (elems : list Go.Value) (epicKeys : list string)
  : M (list string) :=
  match elems with
  | [] => mret epicKeys
  | e :: rest =>
      p ← assert_string_ptr e;
      s ← deref_string p;
      range_input rest (epicKeys ++ [s])
  end.

(** Lines 75-87. *)
Definition Query (reqData : helper.RequestData)
  : M (Go.Values * option errors.Error) :=
  let query : Go.Values := ∅ in
  let epicKeys : list string := [] in
  elems ← assert_slice (helper.Input reqData);
  epicKeys ← range_input elems epicKeys;
  jql ← read jql;
  let localJQL := "issue in (" +:+ Go.Join epicKeys "," +:+ ") " +:+ jql in
  let query := Go.Set_ query "jql" localJQL in
  pager ← deref_pager (helper.Pager_ reqData);
  let query := Go.Set_ query "startAt" (Go.FormatInt (helper.Skip pager)) in
  pager ← deref_pager (helper.Pager_ reqData);
  let query := Go.Set_ query "maxResults" (Go.FormatInt (helper.Size pager)) in
  let query := Go.Set_ query "expand" "changelog" in
  mret (query, None).

(** The batch a collector hands to [Query]: a [[]interface{}] of non-nil
    [*string]. *)
Definition batch_input (ptrs : list Go.loc) : Go.Value :=
  Go.VSlice (map (λ l, Go.VStringPtr (Some l)) ptrs).

(** The keys such a batch holds in a given memory. *)
Definition batch_keys (st : State) (ptrs : list Go.loc) : list string :=
  map (strings st) ptrs.

(** The four parameters [Query] sets, as a map. *)
Definition expected_values (jql : string) (keys : list string)
    (pager : helper.Pager) : Go.Values :=
  <["expand" := ["changelog"]]>
    (<["maxResults" := [Go.FormatInt (helper.Size pager)]]>
      (<["startAt" := [Go.FormatInt (helper.Skip pager)]]>
        (<["jql" := ["issue in (" +:+ Go.Join keys "," +:+ ") " +:+ jql]]> ∅))).

(** The shape [Query] expects of [reqData.Input]: a [[]interface{}] whose
    every element is a non-nil [*string]. *)
Definition is_non_nil_string_ptr (v : Go.Value) : bool :=
  match v with
  | Go.VStringPtr (Some _) => true
  | _ => false
  end.

Definition well_shaped (v : Go.Value) : bool :=
  match v with
  | Go.VSlice l => forallb is_non_nil_string_ptr l
  | _ => false
  end.

(** The panic an ill-shaped input provokes: the first element that is not
    a non-nil [*string] decides. *)
Fixpoint elems_fault (l : list Go.Value) : option Go.Panic :=
  match l with
  | [] => None
  | Go.VStringPtr (Some _) :: rest => elems_fault rest
  | Go.VStringPtr None :: _ => Some Go.NilDereference
  | _ :: _ => Some Go.TypeAssertionFailed
  end.

Definition input_fault (v : Go.Value) : option Go.Panic :=
  match v with
  | Go.VSlice l => elems_fault l
  | _ => Some Go.TypeAssertionFailed
  end.

(** ** CollectEpics: the ResponseParser closure (lines 91-104) *)

Definition ResponseParser (res : http.Response)
  : list json.RawMessage * option errors.Error :=
  let Issues : list json.RawMessage := [] in
  let '(blob, err) := io.ReadAll (http.Body res) in
  match err with
  | Some err => ([], Some (errors.Convert err))
  | None =>
      let '(Issues, err) := json.Unmarshal blob "issues" Issues in
      match err with
      | Some err => ([], Some (errors.Convert err))
      | None => (Issues, None)
      end
  end.

(** A response whose body arrives whole. *)
Definition response_of (body : string) : http.Response :=
  http.mkResponse 200 (io.Chunk body io.EOF).

(** *** What the object in a body says about "issues" *)

(** A member as the decoder reads it: unquoted key and encoded value. *)
Definition keyed (m : string) : string * string :=
  let '(key, value) := json.splitMember m in (json.unquote key, value).

(** The members of the object a valid text encodes, in the order of the
    text. *)
Definition members (data : string) : list (string * string) :=
  map keyed (json.items (json.skipSpace data)).

Definition topKind (data : string) : json.Kind :=
  json.kindOf (json.skipSpace data).

(** A member selects the field when its key is "issues", up to case. *)
Definition selects (kv : string * string) : Prop :=
  json.matchesField "issues" kv.1 = true.

(** The members whose key selects the field "issues". *)
Definition issuesMembers (data : string) : list (string * string) :=
  filter selects (members data).

Definition isArrayOrNull (value : string) : bool :=
  match json.kindOf value with
  | json.KArray | json.KNull => true
  | _ => false
  end.

(** What one selected member leaves in the field: the elements of an
    array, nothing for null. *)
Definition stored (value : string) : list json.RawMessage :=
  match json.kindOf value with
  | json.KArray => json.items value
  | _ => []
  end.

(** A body is valid JSON for the struct with the field "issues" when it
    is well-formed JSON and is either null or an object in which every
    member named issues holds an array or null. *)
Definition validForIssues (data : string) : bool :=
  json.Valid data &&
  match topKind data with
  | json.KNull => true
  | json.KObject => forallb (λ m, isArrayOrNull m.2) (issuesMembers data)
  | _ => false
  end.

(** The records under "issues": the elements of the array the last
    member of that name holds, none when there is no such member or it
    holds null. *)
Definition issuesOf (data : string) : list json.RawMessage :=
  match topKind data with
  | json.KObject =>
      match last (issuesMembers data) with
      | Some kv => stored kv.2
      | None => []
      end
  | _ => []
  end.

(** ** The collaborators of CollectEpics *)

Module dal.

(** The clauses a query is built from; [Where] carries the values bound
    to its placeholders. *)
Inductive Clause :=
| Select (fields : string)
| From (table : string)
| Join (clause : string)
| Where (clause : string) (params : list N).

(** An open cursor over the rows of a one-column result. *)
Definition Rows := list string.

End dal.

Module reflect.

(** The [reflect.Type] of the values of [Go.Value]; [Invalid] stands
    for the nil [Type] that [TypeOf(nil)] returns. *)
Inductive Type_ :=
| Invalid | Bool_ | Int_ | String_ | PtrToString | SliceOfString
| SliceOfInterface.

Definition TypeOf (v : Go.Value) : Type_ :=
  match v with
  | Go.VNil => Invalid
  | Go.VBool _ => Bool_
  | Go.VInt _ => Int_
  | Go.VString _ => String_
  | Go.VStringPtr _ => PtrToString
  | Go.VStringSlice _ => SliceOfString
  | Go.VSlice _ => SliceOfInterface
  end.

End reflect.

Module Options.
(** [JiraOptions], the part read here. *)
Record t := mk { ConnectionId : N; BoardId : N }.
End Options.

Module JiraApiParams.
Record t := mk { ConnectionId : N; BoardId : N }.
End JiraApiParams.

(** The remote client; the collector only passes it on. *)
Inductive ApiAsyncClient := ApiClientFor (endpoint : string).

(** [JiraTaskData], the part read here. *)
Record JiraTaskData := mkJiraTaskData {
  Options_ : Options.t;
  ApiClient : ApiAsyncClient;
  Since : option Time.t
}.

(** [helper.BatchedDalCursorIterator]: the cursor it wraps, the type its
    rows decode to and the batch size. *)
Record Iterator := mkIterator {
  cursor : dal.Rows;
  elemType : reflect.Type_;
  Iterator_batchSize : Z
}.

(** A function of the plugin that is passed by name. *)
Inductive TotalPagesFunc := GetTotalPagesFromResponse.

(** The [Query] closure as a value: its code and the variable it
    captured. *)
Record QueryFunc := mkQueryFunc {
  captured_jql : string;
  code : helper.RequestData → M (Go.Values * option errors.Error)
}.


(** [helper.RawDataSubTaskArgs]; its [Ctx] is the task context the
    function was called with. *)
Record RawDataSubTaskArgs := mkRawDataSubTaskArgs {
  Params : JiraApiParams.t;
  Table : string
}.

(** [helper.ApiCollectorArgs], the fields [CollectEpics] sets. *)
Record ApiCollectorArgs := mkApiCollectorArgs {
  RawDataSubTaskArgs_ : RawDataSubTaskArgs;
  ApiClient_ : ApiAsyncClient;
  PageSize : Z;
  Incremental : bool;
  UrlTemplate : string;
  Query_ : QueryFunc;
  Input_ : Iterator;
  GetTotalPages : TotalPagesFunc;
  Concurrency : Z;
  ResponseParser_ : http.Response → list json.RawMessage * option errors.Error
}.

Record ApiCollector := mkApiCollector { args : ApiCollectorArgs }.

(** What the code outside this file decides: whether the database query
    fails and which rows it yields, whether the iterator and the
    collector can be built, and how the collector's run ends. *)
Record Collaborators := mkCollaborators {
  db_Cursor : list dal.Clause → dal.Rows + errors.GoError;
  iterator_failure : dal.Rows → reflect.Type_ → Z → option errors.Error;
  collector_failure : ApiCollectorArgs → option errors.Error;
  collector_Execute : ApiCollector → option errors.Error
}.

(** The calls [CollectEpics] makes to its collaborators, in order.  The
    requests to the remote API are made by the collector's run, behind
    [CallExecute]; constructing the collector is [CallNewApiCollector]. *)
Inductive Event :=
| CallCursor (clauses : list dal.Clause)
| CallNewBatchedDalCursorIterator (cursor : dal.Rows) (ty : reflect.Type_) (batchSize : Z)
| CallNewApiCollector (args : ApiCollectorArgs)
| CallExecute (collector : ApiCollector).

(** Code that calls collaborators: the calls made, and the result. *)
Definition W (A : Type) : Type := list Event * A.

Global Instance W_ret : MRet W := λ A a, ([], a).

Global Instance W_bind : MBind W := λ A B k m,
  let '(calls, a) := m in
  let '(calls', b) := k a in
  ((calls ++ calls')%list, b).

Definition call {A} (ev : Event) (result : A) : W A := ([ev], result).

Section Collect.

Variable env : Collaborators.

(** [db.Cursor(clauses...)] *)
Definition Cursor (clauses : list dal.Clause) : W (dal.Rows + errors.GoError) :=
  call (CallCursor clauses) (db_Cursor env clauses).

(** [helper.NewBatchedDalCursorIterator(db, cursor, elemType, batchSize)] *)
Definition NewBatchedDalCursorIterator (cursor : dal.Rows)
    (ty : reflect.Type_) (batchSize : Z) : W (Iterator + errors.Error) :=
  call (CallNewBatchedDalCursorIterator cursor ty batchSize)
    match iterator_failure env cursor ty batchSize with
    | Some err => inr err
    | None => inl (mkIterator cursor ty batchSize)
    end.

(** [helper.NewApiCollector(args)] *)
Definition NewApiCollector (a : ApiCollectorArgs)
  : W (ApiCollector + errors.Error) :=
  call (CallNewApiCollector a)
    match collector_failure env a with
    | Some err => inr err
    | None => inl (mkApiCollector a)
    end.

(** [collector.Execute()] *)
Definition Execute (c : ApiCollector) : W (option errors.Error) :=
  call (CallExecute c) (collector_Execute env c).

(** Lines 114-129: the clauses of the input query. *)
Definition epic_keys_clauses (data : JiraTaskData) : list dal.Clause :=
  [ dal.Select "DISTINCT epic_key";
    dal.From "_tool_jira_issues i";
    dal.Join "
			LEFT JOIN _tool_jira_board_issues bi ON (
			i.connection_id = bi.connection_id
			AND 
			i.issue_id = bi.issue_id
		)";
    dal.Where "
			i.connection_id = ?
			AND 
			bi.board_id = ?
			AND
			i.epic_key != ''
		" [Options.ConnectionId (Options_ data); Options.BoardId (Options_ data)] ].

(** Lines 112-139. *)
Definition GetEpicKeysIterator (data : JiraTaskData) (batchSize : Z)
  : W (Iterator + errors.Error) :=
  r ← Cursor (epic_keys_clauses data);
  match r with
  | inr err =>
      mret (inr (errors.DefaultWrap err "unable to query for external epics"))
  | inl cursor =>
      r ← NewBatchedDalCursorIterator cursor (reflect.TypeOf (Go.VString "")) batchSize;
      match r with
      | inr err => mret (inr err)
      | inl iter => mret (inl iter)
      end
  end.

(** Lines 62-105: the arguments of [helper.NewApiCollector]. *)
Definition collector_args (data : JiraTaskData) (jql : string)
    (epicIterator : Iterator) : ApiCollectorArgs :=
  {| RawDataSubTaskArgs_ :=
       {| Params :=
            {| JiraApiParams.ConnectionId := Options.ConnectionId (Options_ data);
               JiraApiParams.BoardId := Options.BoardId (Options_ data) |};
          Table := RAW_EPIC_TABLE |};
     ApiClient_ := ApiClient data;
     PageSize := 100;
     Incremental := false;
     UrlTemplate := "api/2/search";
     Query_ := mkQueryFunc jql Query;
     Input_ := epicIterator;
     GetTotalPages := GetTotalPagesFromResponse;
     Concurrency := 10;
     ResponseParser_ := ResponseParser |}.

(** Lines 49-110; [data] is what [taskCtx.GetData()] holds, the database
    of [taskCtx.GetDal()] is the collaborators'. *)
Definition CollectEpics (data : JiraTaskData) : W (option errors.Error) :=
  r ← GetEpicKeysIterator data 100;
  match r with
  | inr err => mret (Some err)
  | inl epicIterator =>
      let since := Since data in
      let jql := jql_clause since in
      r ← NewApiCollector (collector_args data jql epicIterator);
      match r with
      | inr err => mret (Some err)
      | inl collector => Execute collector
      end
  end.

End Collect.

(** After the specification (section 3): two collector runs are re-runs
    of the same job when their params and their raw table are the same. *)
Definition same_job (a1 a2 : ApiCollectorArgs) : Prop :=
  Params (RawDataSubTaskArgs_ a1) = Params (RawDataSubTaskArgs_ a2)
  ∧ Table (RawDataSubTaskArgs_ a1) = Table (RawDataSubTaskArgs_ a2).

(** What C6 says of one call. *)
Definition builds_epics_collector (data : JiraTaskData) (ev : Event) : Prop :=
  match ev with
  | CallNewApiCollector a =>
      Incremental a = false
      ∧ Params (RawDataSubTaskArgs_ a)
        = JiraApiParams.mk (Options.ConnectionId (Options_ data))
                           (Options.BoardId (Options_ data))
      ∧ Table (RawDataSubTaskArgs_ a) = "jira_api_epics"
  | _ => True
  end.

(** The time-lower-bound clause for a given since. *)
Definition time_bound (t : Time.t) : string :=
  "updated >= '" +:+ Time.Format t +:+ "' ".

(** Whether a call builds or runs the collector. *)
Definition collector_call (ev : Event) : bool :=
  match ev with
  | CallNewApiCollector _ | CallExecute _ => true
  | _ => false
  end.

(** *** Sample runs *)

(** Collaborators with a database that is down. *)
Definition env_db_down : Collaborators :=
  mkCollaborators (λ _, inr (errors.DbError "connection refused"))
    (λ _ _ _, None) (λ _, None) (λ _, None).

Definition sample_data : JiraTaskData :=
  mkJiraTaskData (Options.mk 1 8) (ApiClientFor "https://jira.example/rest/")
    None.

(** Collaborators that all succeed; the query yields two epic keys. *)
Definition env_ok : Collaborators :=
  mkCollaborators (λ _, inl ["EPIC-1"; "EPIC-2"])
    (λ _ _ _, None) (λ _, None) (λ _, None).

(** The collector arguments of that run. *)
Definition sample_args : ApiCollectorArgs :=
  collector_args sample_data (jql_clause None)
    (mkIterator ["EPIC-1"; "EPIC-2"] reflect.String_ 100).

(** ** The rows the input query selects *)

Module issue.
(** A row of _tool_jira_issues, the columns the query reads; [None] is
    NULL. *)
Record t := mk {
  connection_id : N;
  issue_id : N;
  epic_key : option string
}.
End issue.

Module board_issue.
(** A row of _tool_jira_board_issues. *)
Record t := mk {
  connection_id : N;
  board_id : N;
  issue_id : N
}.
End board_issue.


Module sql.






End sql.

(** ** The engine behind the collector *)

Module engine.

(** Modelled from the spec: the stop condition of one batch's pagination
    (section 4.3; package helper is not among the sources): the page is
    the last one known, [pageIndex + 1 >= totalPages], or its record
    sequence is empty. *)
Definition stop_condition (pageIndex : Z) (totalPages : option Z)
    (records : list json.RawMessage) : bool :=
  match totalPages with
  | Some total => (total <=? pageIndex + 1)
  | None => false
  end
  || match records with
     | [] => true
     | _ => false
     end.

(** Modelled from the spec: a task, the unit of concurrent work (section
    3): an input batch, the index of the page to fetch, and the total
    page count when a response has told it. *)
Record Task := mkTask {
  inputBatch : list string;
  pageIndex : Z;
  totalPages : option Z
}.

(** Modelled from the spec: the state of the Concurrent Collector
    (sections 4.4 and 5): the batches the Cursor Batcher has yet to
    yield, the queued tasks, the tasks being executed by workers, the
    records handed to the Raw Sink and the first error. *)
Record Pool := mkPool {
  pending : list (list string);
  queue : list Task;
  running : list Task;
  sink : list json.RawMessage;
  failed : option errors.Error
}.

Definition init (batches : list (list string)) : Pool :=
  mkPool batches [] [] [] None.

(** Modelled from the spec: how a task that got its response ends
    (sections 4.3 and 4.4).  A parse error fails the run and discards
    the queue; otherwise the records go to the sink and, unless the stop
    condition holds, the batch's next page is queued. *)
Definition finish (a : ApiCollectorArgs) (resolve : http.Response → option Z)
    (t : Task) (res : http.Response) (others : list Task) (p : Pool) : Pool :=
  match ResponseParser_ a res with
  | (_, Some err) =>
      mkPool (pending p) [] others (sink p)
        (match failed p with Some e => Some e | None => Some err end)
  | (records, None) =>
      let total := match totalPages t with
                   | Some n => Some n
                   | None => resolve res
                   end in
      let next :=
        if stop_condition (pageIndex t) total records then []
        else match failed p with
             | Some _ => []
             | None => [mkTask (inputBatch t) (pageIndex t + 1) total]
             end in
      mkPool (pending p) (queue p ++ next) others (sink p ++ records) (failed p)
  end.

(** Modelled from the spec: the moves of the Concurrent Collector
    (sections 4.4 and 5).  A batch is pulled and its page 0 queued; a
    queued task is started when a worker slot is free, that is when
    fewer than Concurrency tasks are executing; an executing task ends
    with a response, or with a fetch or persistence error that fails
    the run.  After a
    failure nothing is pulled or started. *)
Inductive step (a : ApiCollectorArgs) (resolve : http.Response → option Z)
  : Pool → Pool → Prop :=
| step_pull b bs q r s :
    step a resolve (mkPool (b :: bs) q r s None)
                   (mkPool bs (q ++ [mkTask b 0 None]) r s None)
| step_start bs t q r s :
    Z.of_nat (length r) < Concurrency a →
    step a resolve (mkPool bs (t :: q) r s None)
                   (mkPool bs q (t :: r) s None)
| step_response p r1 t r2 res :
    running p = (r1 ++ t :: r2)%list →
    step a resolve p (finish a resolve t res (r1 ++ r2) p)
| step_task_error p r1 t r2 err :
    running p = (r1 ++ t :: r2)%list →
    step a resolve p
      (mkPool (pending p) [] (r1 ++ r2) (sink p)
         (match failed p with Some e => Some e | None => Some err end)).

(** The states a run passes through. *)
Inductive reachable (a : ApiCollectorArgs) (resolve : http.Response → option Z)
    (batches : list (list string)) : Pool → Prop :=
| reach_init : reachable a resolve batches (init batches)
| reach_step p p' :
    reachable a resolve batches p → step a resolve p p' →
    reachable a resolve batches p'.

End engine.

(** A pool whose one batch has been pulled and whose page 0 is being
    fetched. *)
Definition sample_pool : engine.Pool :=
  engine.mkPool [] [] [engine.mkTask ["EPIC-1"; "EPIC-2"] 0 None] [] None.

(** ** Further definitions *)

(** [core.SubTaskMeta], and the domain types this subtask names. *)
Inductive DomainType := DOMAIN_TYPE_TICKET | DOMAIN_TYPE_CROSS.

Record SubTaskMeta := mkSubTaskMeta {
  Name : string;
  EntryPoint : Collaborators → JiraTaskData → W (option errors.Error);
  EnabledByDefault : bool;
  Description : string;
  DomainTypes : list DomainType
}.

(** Lines 41-47. *)
Definition CollectEpicsMeta : SubTaskMeta :=
  {| Name := "collectEpics";
     EntryPoint := CollectEpics;
     EnabledByDefault := true;
     Description := "collect Jira epics from all boards";
     DomainTypes := [DOMAIN_TYPE_TICKET; DOMAIN_TYPE_CROSS] |}.

(** A body that arrives in the given chunks and then ends. *)
Fixpoint reader_of (chunks : list string) : io.Reader :=
  match chunks with
  | [] => io.EOF
  | chunk :: rest => io.Chunk chunk (reader_of rest)
  end.

(** A body whose read fails after the given chunks. *)
Fixpoint failing_reader (chunks : list string) (err : errors.GoError)
  : io.Reader :=
  match chunks with
  | [] => io.Failure err
  | chunk :: rest => io.Chunk chunk (failing_reader rest err)
  end.

(** The bytes of a list of chunks. *)
Fixpoint bytes_of (chunks : list string) : string :=
  match chunks with
  | [] => EmptyString
  | chunk :: rest => chunk +:+ bytes_of rest
  end.

(** A text of JSON white space only. *)
Fixpoint blank (s : string) : bool :=
  match s with
  | EmptyString => true
  | String c rest => json.isSpace c && blank rest
  end.

(** The names an [UnmarshalTypeError] of [ResponseParser] can carry. *)
Definition type_error_names : list string :=
  ["array"; "object"; "string"; "number"; "bool"].

(** A key with nothing to unquote: ASCII bytes, no double quote and no
    backslash. *)
Fixpoint plainKey (k : string) : bool :=
  match k with
  | EmptyString => true
  | String c rest =>
      (json.byte_of c <? 128)%N && negb (Ascii.eqb c json.dquote)
      && negb (Ascii.eqb c "\") && plainKey rest
  end.

(** The text of an array with the given elements. *)
Definition array_text (es : list string) : string :=
  "[" +:+ Go.Join es "," +:+ "]".

(** The text of an object member: quoted key, colon, value. *)
Definition member_text (k value : string) : string :=
  String json.dquote (k +:+ String json.dquote (":" +:+ value)).

(** The text of an object with one member, whose value is an array. *)
Definition issues_body (k : string) (es : list string) : string :=
  "{" +:+ member_text k (array_text es) +:+ "}".

(** A key without a comma. *)
Fixpoint comma_free (k : string) : bool :=
  match k with
  | EmptyString => true
  | String c rest => negb (Ascii.eqb c ",") && comma_free rest
  end.

(** A key as the input query yields them (not empty) that holds no
    comma. *)
Definition plain_epic_key (k : string) : bool :=
  match k with
  | EmptyString => false
  | _ => comma_free k
  end.

(** What [strings.Join] puts after the first element. *)
Definition joined_tail (rest : list string) : string :=
  match rest with
  | [] => EmptyString
  | _ => "," +:+ Go.Join rest ","
  end.

(** A time whose fields are those of a date of the years 0 to 9999. *)
Definition in_range (t : Time.t) : Prop :=
  0 ≤ Time.Year t ≤ 9999 ∧ 1 ≤ Time.Month t ≤ 12 ∧ 1 ≤ Time.Day t ≤ 31
  ∧ 0 ≤ Time.Hour t ≤ 23 ∧ 0 ≤ Time.Minute t ≤ 59.

Fixpoint all_digits (s : string) : bool :=
  match s with
  | EmptyString => true
  | String c rest => json.isDigit c && all_digits rest
  end.

(** A numeral of exactly [n] digits. *)
Definition digits (n : nat) (s : string) : bool :=
  (String.length s =? n)%nat && all_digits s.

(** Whether [appendInt] writes [x] as exactly [width] digits. *)
Definition pads_to (width : nat) (x : Z) : bool :=
  digits width (Time.appendInt x width).

(** A text without an apostrophe. *)
Fixpoint quote_free (s : string) : bool :=
  match s with
  | EmptyString => true
  | String c rest => negb (Ascii.eqb c "'") && quote_free rest
  end.


(** The text of an object with the given members. *)
Definition object_text (kvs : list (string * string)) : string :=
  "{" +:+ Go.Join (map (λ kv, member_text kv.1 kv.2) kvs) "," +:+ "}".

(** A member with a plain key and a whole value. *)
Definition plain_member (kv : string * string) : bool :=
  plainKey kv.1 && json.element kv.2.


(** * Properties *)

Example Format_2022 :
  Time.Format (Time.mk 2022 7 5 9 3) = "2022/07/05 09:03".
Proof. reflexivity. Qed.

Example FormatInt_neg : Go.FormatInt (-120) = "-120".
Proof. reflexivity. Qed.

Example Join_three : Go.Join ["A-1"; "B-2"; "C-3"] "," = "A-1,B-2,C-3".
Proof. reflexivity. Qed.


(** ** Strings *)


Lemma append_cons_eq (c : ascii) (a b : string) :
  String c a +:+ b = String c (a +:+ b).
Proof. reflexivity. Qed.

Lemma append_assoc_eq (a b c : string) : (a +:+ b) +:+ c = a +:+ (b +:+ c).
Proof.
  induction a as [|x a IH]; [done|].
  by rewrite !append_cons_eq, IH.
Qed.

Lemma append_nil_l (s : string) : EmptyString +:+ s = s.
Proof. reflexivity. Qed.

Lemma append_nil_r (s : string) : s +:+ EmptyString = s.
Proof.
  induction s as [|c s IH]; [done|]. by rewrite append_cons_eq, IH.
Qed.

(** ** The Query closure *)

Section QueryFacts.

Implicit Types (st : State) (ptrs : list Go.loc) (acc : list string).

(** On a batch of non-nil string pointers the loop appends the pointed
    strings, in order, and leaves the memory alone. *)
Lemma range_input_batch ptrs acc st :
  range_input (map (λ l, Go.VStringPtr (Some l)) ptrs) acc st
  = (Go.Returned (acc ++ batch_keys st ptrs)%list, st).
Proof.
  revert acc. induction ptrs as [|l ptrs IH]; intros acc; simpl.
  - by rewrite app_nil_r.
  - unfold mbind, M_bind; simpl. rewrite IH.
    by rewrite <- app_assoc.
Qed.

Lemma Query_batch ptrs pl st :
  Query (helper.mkRequestData (Some pl) (batch_input ptrs)) st
  = (Go.Returned
       (expected_values (jql st) (batch_keys st ptrs) (pagers st pl), None),
     st).
Proof.
  unfold Query, batch_input; simpl.
  unfold mbind, M_bind; simpl.
  rewrite range_input_batch. reflexivity.
Qed.

End QueryFacts.

(** Every element of a joined list stands in the joined string. *)
Lemma Join_embeds (keys : list string) (sep k : string) :
  k ∈ keys → ∃ pre post, Go.Join keys sep = pre +:+ k +:+ post.
Proof.
  induction keys as [|e keys IH]; intros Hin; [by apply elem_of_nil in Hin|].
  apply elem_of_cons in Hin as [->|Hin].
  - destruct keys as [|e' keys].
    + exists EmptyString, EmptyString. simpl. by rewrite append_nil_r.
    + by exists EmptyString, (sep +:+ Go.Join (e' :: keys) sep).
  - destruct (IH Hin) as (pre & post & Heq).
    destruct keys as [|e' keys]; [by apply elem_of_nil in Hin|].
    exists (e +:+ sep +:+ pre), post.
    change (Go.Join (e :: e' :: keys) sep)
      with (e +:+ sep +:+ Go.Join (e' :: keys) sep).
    rewrite Heq. by rewrite !append_assoc_eq.
Qed.

(** C1: for every batch of keys and every pager, [Query] returns without
    error one parameter map whose keys are exactly jql, startAt, maxResults
    and expand; jql carries one value, "issue in (k1,...,kn) " followed by
    the ordering/time clause, in which every key of the batch stands;
    startAt and maxResults are the decimal numerals of the pager's Skip and
    Size (and determine them); expand is "changelog". *)
Theorem C1_Query_parameters (st : State) (ptrs : list Go.loc) (pl : Go.loc) :
  ∃ query : Go.Values,
    Query (helper.mkRequestData (Some pl) (batch_input ptrs)) st
      = (Go.Returned (query, None), st)
    ∧ dom query = ({["jql"; "startAt"; "maxResults"; "expand"]} : gset string)
    ∧ query !! "jql"
      = Some ["issue in (" +:+ Go.Join (batch_keys st ptrs) "," +:+ ") "
              +:+ jql st]
    ∧ (∀ k, k ∈ batch_keys st ptrs →
         ∃ pre post, query !! "jql" = Some [pre +:+ k +:+ post])
    ∧ query !! "startAt" = Some [Go.FormatInt (helper.Skip (pagers st pl))]
    ∧ query !! "maxResults" = Some [Go.FormatInt (helper.Size (pagers st pl))]
    ∧ query !! "expand" = Some ["changelog"]
    ∧ (∀ n, query !! "startAt" = Some [Go.FormatInt n]
            → n = helper.Skip (pagers st pl))
    ∧ (∀ n, query !! "maxResults" = Some [Go.FormatInt n]
            → n = helper.Size (pagers st pl)).
Proof.
  eexists. split; [apply Query_batch|].
  unfold expected_values.
  split; [rewrite !dom_insert_L, dom_empty_L; set_solver|].
  split; [done|]. split.
  { intros k [pre [post Heq]]%(Join_embeds _ ",").
    exists ("issue in (" +:+ pre), (post +:+ ") " +:+ jql st).
    rewrite !lookup_insert_ne by done. rewrite lookup_insert_eq.
    rewrite Heq. by rewrite !append_assoc_eq. }
  repeat split; try done.
  - intros n Hn. simplify_map_eq. by apply (inj pretty).
  - intros n Hn. simplify_map_eq. by apply (inj pretty).
Qed.

Section QueryPurity.

Implicit Types (st : State) (req : helper.RequestData).

(** The loop only reads. *)
Lemma range_input_state elems acc st :
  (range_input elems acc st).2 = st.
Proof.
  revert acc. induction elems as [|e elems IH]; intros acc; [done|].
  simpl. unfold mbind, M_bind.
  destruct e as [| | | |[l|]| |]; simpl; try done.
Qed.

(** [Query] leaves the memory as it found it, whatever the request and
    whether it returns or panics. *)
Lemma Query_state req st : (Query req st).2 = st.
Proof.
  unfold Query, mbind, M_bind.
  destruct (helper.Input req); simpl; try done.
  pose proof (range_input_state l [] st) as Hst.
  destruct (range_input l [] st) as [[keys|p] st']; simpl in *; subst st'.
  - destruct (helper.Pager_ req); done.
  - done.
Qed.

Lemma elems_fault_panics elems acc st p :
  elems_fault elems = Some p →
  range_input elems acc st = (Go.Panicked p, st).
Proof.
  revert acc. induction elems as [|e elems IH]; intros acc Hf; [done|].
  simpl in *. unfold mbind, M_bind.
  destruct e as [| | | |[l|]| |]; simpl in *; simplify_eq; try done.
  by apply IH.
Qed.

Lemma input_fault_panics req st p :
  input_fault (helper.Input req) = Some p →
  Query req st = (Go.Panicked p, st).
Proof.
  unfold Query, mbind, M_bind, input_fault.
  destruct (helper.Input req); simpl; intros Hf; simplify_eq; try done.
  by rewrite (elems_fault_panics _ _ _ _ Hf).
Qed.

Lemma well_shaped_fault v :
  well_shaped v = false ↔ is_Some (input_fault v).
Proof.
  assert (∀ p : Go.Panic, false = false ↔ is_Some (Some p)) as Hbad
    by (intros p; split; [by eexists|done]).
  destruct v as [| | | | | |l]; simpl; try apply Hbad.
  induction l as [|e l IH]; simpl.
  - split; [done|]. by intros [? ?].
  - destruct e as [| | | |[x|]| |]; simpl; try apply Hbad. apply IH.
Qed.

(** A well-shaped input is a batch of non-nil string pointers. *)
Lemma well_shaped_batch v :
  well_shaped v = true → ∃ ptrs, v = batch_input ptrs.
Proof.
  destruct v as [| | | | | |l]; simpl; try done.
  induction l as [|e l IH]; simpl.
  - by exists [].
  - destruct e as [| | | |[x|]| |]; simpl; try done.
    intros [ptrs Hp]%IH. exists (x :: ptrs).
    unfold batch_input in *. simpl. congruence.
Qed.

End QueryPurity.

(** C8: [Query] is deterministic and free of side effects.  With the same
    since value behind the captured jql, two invocations whose batches hold
    equal keys and whose pagers are equal return equal parameter maps,
    wherever the batches and pagers live in memory; and no invocation
    changes the memory: the batch's strings, the pagers and the captured
    jql are after the call what they were before. *)
Theorem C8_Query_deterministic_pure
    (since : option Time.t) (st1 st2 : State)
    (ptrs1 ptrs2 : list Go.loc) (pl1 pl2 : Go.loc)
    (Hjql1 : jql st1 = jql_clause since)
    (Hjql2 : jql st2 = jql_clause since)
    (Hbatch : batch_keys st1 ptrs1 = batch_keys st2 ptrs2)
    (Hpager : pagers st1 pl1 = pagers st2 pl2) :
  let r1 := Query (helper.mkRequestData (Some pl1) (batch_input ptrs1)) st1 in
  let r2 := Query (helper.mkRequestData (Some pl2) (batch_input ptrs2)) st2 in
  r1.1 = r2.1
  ∧ r1.2 = st1 ∧ r2.2 = st2
  ∧ (∀ req st, (Query req st).2 = st).
Proof.
  simpl. rewrite !Query_batch. simpl.
  rewrite Hjql1, Hjql2, Hbatch, Hpager.
  repeat split; auto using Query_state.
Qed.

Lemma C8_witness :
  let st1 := mkState (jql_clause None)
               (λ l, if (l =? 1)%positive then "EPIC-1" else "EPIC-2")
               (λ _, helper.mkPager 1 0 100) in
  let st2 := mkState (jql_clause None)
               (λ l, if (l =? 7)%positive then "EPIC-1" else "EPIC-2")
               (λ _, helper.mkPager 1 0 100) in
  (Query (helper.mkRequestData (Some 3%positive) (batch_input [1; 2]%positive)) st1).1
  = (Query (helper.mkRequestData (Some 4%positive) (batch_input [7; 9]%positive)) st2).1.
Proof.
  intros st1 st2.
  apply (C8_Query_deterministic_pure None st1 st2
           [1; 2]%positive [7; 9]%positive 3%positive 4%positive);
    reflexivity.
Defined.

(** C9: [Query] needs [reqData.Input] to be a [[]interface{}] of non-nil
    [*string].  On any other input it returns nothing, neither parameters
    nor an error value: it panics, with a failed type assertion when the
    input is not a [[]interface{}] or when the first offending element is
    not a [*string], and with a nil dereference when that element is a nil
    [*string]. *)
Theorem C9_Query_panics_on_ill_shaped_input
    (req : helper.RequestData) (st : State)
    (Hshape : well_shaped (helper.Input req) = false) :
  ∃ p : Go.Panic,
    input_fault (helper.Input req) = Some p
    ∧ Query req st = (Go.Panicked p, st)
    ∧ ∀ r, (Query req st).1 ≠ Go.Returned r.
Proof.
  apply well_shaped_fault in Hshape as [p Hp].
  exists p. split; [done|].
  rewrite (input_fault_panics _ _ _ Hp). split; [done|]. by intros r.
Qed.

Lemma C9_witness :
  ∃ p : Go.Panic,
    input_fault (Go.VSlice [Go.VStringPtr (Some 1%positive); Go.VStringPtr None])
      = Some p
    ∧ Query (helper.mkRequestData (Some 2%positive)
               (Go.VSlice [Go.VStringPtr (Some 1%positive); Go.VStringPtr None]))
            (mkState "ORDER BY created ASC" (λ _, "K-1") (λ _, helper.mkPager 1 0 100))
      = (Go.Panicked p,
         mkState "ORDER BY created ASC" (λ _, "K-1") (λ _, helper.mkPager 1 0 100))
    ∧ ∀ r, (Query (helper.mkRequestData (Some 2%positive)
               (Go.VSlice [Go.VStringPtr (Some 1%positive); Go.VStringPtr None]))
            (mkState "ORDER BY created ASC" (λ _, "K-1") (λ _, helper.mkPager 1 0 100))).1
           ≠ Go.Returned r.
Proof.
  apply (C9_Query_panics_on_ill_shaped_input
           (helper.mkRequestData (Some 2%positive)
              (Go.VSlice [Go.VStringPtr (Some 1%positive); Go.VStringPtr None]))).
  reflexivity.
Defined.

Example Valid_samples :
  map (λ s, json.Valid (json.text s))
    ["{}"; "[]"; "null"; " {'issues': [1, {'a':'b\n'}, null]} "; "12";
     "-0.5e+3"; "'x'"; "tru"; "{"; "[1,]"; "{'a':1,}"; "01"; "1 2"; "";
     "{'a' 1}"; "['\x']"; "[1] x"; "nul"; "-"; "1."; "[[[]]]" ]
  = [true; true; true; true; true;
     true; true; false; false; false; false; false; false; false;
     false; false; false; false; false; false; true].
Proof. vm_compute. reflexivity. Qed.

Example items_samples :
  json.items (json.text "[1, {'a': [2, 3]} ,'x,]\'' , null ]")
    = map json.text ["1"; "{'a': [2, 3]}"; "'x,]\''"; "null"]
  ∧ json.items "[ ]" = []
  ∧ map json.splitMember
      (json.items (json.text "{ 'issues' : [1,2], 'a\'b': {'c':1} }"))
    = [("issues", "[1,2]"); (json.text "a\'b", json.text "{'c':1}")].
Proof. vm_compute. repeat split. Qed.

Example Valid_more_samples :
  map (λ s, json.Valid (json.text s))
    ["[1 ,2]"; "{ }"; "[ ]"; "  null  "; "1e5"; "1E+5"; "1e"; "-0"; "-01";
     "0.0"; ".5"; "'\u12G4'"; "'ኤ'"; "{'a':{'b':[true,false,null]}}";
     "{'a':1 'b':2}"; "[1,2"; "{'a':}"; "{1:2}"; "'a" ; "[,1]"; "truex";
     "{'a':1}}"; "+1"; "1e-2"; "'\/'"; "'\a'"]
  = [true; true; true; true; true; true; false; true; false;
     true; false; false; true; true;
     false; false; false; false; false; false; false;
     false; false; true; true; false]
  ∧ json.Valid (String "'" (String "009" "'")) = false
  ∧ json.Valid (json.text (String "'" (String "009" "'"))) = false.
Proof. vm_compute. repeat split. Qed.

Example unquote_samples :
  json.unquote "issues" = "issues"
  ∧ json.unquote "a\nb" = String "a" (String "010" "b")
  ∧ json.unquote "ſ" = json.smallLongEss
  ∧ json.unquote "😀" = json.EncodeRune 128512
  ∧ json.unquote (json.EncodeRune 128512) = json.EncodeRune 128512
  ∧ json.unquote (String (json.chr 200) "x") = json.EncodeRune json.RuneError +:+ "x"
  ∧ json.unquote "\ud83dx" = json.EncodeRune json.RuneError +:+ "x"
  ∧ json.unquote "\ud83d\ude00" = json.EncodeRune 128512
  ∧ json.unquote "\u00e9\u0069" = json.EncodeRune 233 +:+ "i".
Proof. vm_compute. repeat split. Qed.

Example matchesField_samples :
  map (json.matchesField "issues")
    ["issues"; "Issues"; "ISSUES"; "i" +:+ json.smallLongEss +:+ "sues";
     "issue"; "issuesx"; "1ssues"]
  = [true; true; true; true; false; false; false].
Proof. vm_compute. reflexivity. Qed.

Example ResponseParser_samples :
  ResponseParser (response_of (json.text "{'total': 2, 'issues': [ {'id': 1}, {'id':2} ]}"))
    = (map json.text ["{'id': 1}"; "{'id':2}"], None)
  ∧ ResponseParser (response_of (json.text "{'Issues': [1,null,'a']}"))
    = (["1"; "null"; json.text "'a'"], None)
  ∧ ResponseParser (response_of (json.text "{'issues': [1], 'issues': [2, 3]}"))
    = (["2"; "3"], None)
  ∧ ResponseParser (response_of "{}") = ([], None)
  ∧ ResponseParser (response_of "null") = ([], None)
  ∧ ResponseParser (response_of (json.text "{'issues': null}")) = ([], None)
  ∧ ResponseParser (response_of (json.text "{'issues': 5}"))
    = ([], Some (errors.Convert (errors.UnmarshalTypeError "number")))
  ∧ ResponseParser (response_of "[]")
    = ([], Some (errors.Convert (errors.UnmarshalTypeError "array")))
  ∧ ResponseParser (response_of "<html>")
    = ([], Some (errors.Convert errors.SyntaxError))
  ∧ ResponseParser (http.mkResponse 200 (io.Chunk "{" (io.Failure (errors.IoError "reset"))))
    = ([], Some (errors.Convert (errors.IoError "reset"))).
Proof. vm_compute. repeat split. Qed.

(** ** The ResponseParser closure *)

Section Decoding.

Implicit Types (d : json.decodeState) (ms : list string).

Lemma storeMember_skip d m :
  ¬ selects (keyed m) → json.storeMember "issues" d m = d.
Proof.
  unfold selects, keyed, json.storeMember.
  destruct (json.splitMember m) as [key value]; simpl.
  by destruct (json.matchesField "issues" (json.unquote key)).
Qed.

Lemma storeMember_good d m :
  selects (keyed m) → isArrayOrNull (keyed m).2 = true →
  json.storeMember "issues" d m
  = json.mkDecodeState (stored (keyed m).2) (json.savedError d).
Proof.
  unfold selects, keyed, json.storeMember, isArrayOrNull, stored.
  destruct (json.splitMember m) as [key value]; simpl.
  intros ->. by destruct (json.kindOf value).
Qed.

Lemma storeMember_bad d m :
  selects (keyed m) → isArrayOrNull (keyed m).2 = false →
  json.storeMember "issues" d m
  = json.mkDecodeState (json.field d)
      (json.saveError (json.savedError d)
         (errors.UnmarshalTypeError (json.kindName (json.kindOf (keyed m).2)))).
Proof.
  unfold selects, keyed, json.storeMember, isArrayOrNull.
  destruct (json.splitMember m) as [key value]; simpl.
  intros ->. by destruct (json.kindOf value).
Qed.

(** Once an error is saved it stays. *)
Lemma fold_storeMember_saved ms d :
  is_Some (json.savedError d) →
  is_Some (json.savedError (fold_left (json.storeMember "issues") ms d)).
Proof.
  revert d. induction ms as [|m ms IH]; intros d Hd; [done|].
  simpl. apply IH.
  destruct (decide (selects (keyed m))) as [Hs|Hs].
  - destruct (isArrayOrNull (keyed m).2) eqn:Hk.
    + by rewrite storeMember_good.
    + rewrite storeMember_bad by done. simpl.
      destruct Hd as [e ->]. by eexists.
  - by rewrite storeMember_skip.
Qed.

(** The decoder reports no error exactly when every selected member
    holds an array or null. *)
Lemma fold_storeMember_error ms d :
  json.savedError d = None →
  json.savedError (fold_left (json.storeMember "issues") ms d) = None
  ↔ forallb (λ kv, isArrayOrNull kv.2) (filter selects (map keyed ms)) = true.
Proof.
  revert d. induction ms as [|m ms IH]; intros d Hd; [done|].
  simpl. destruct (decide (selects (keyed m))) as [Hs|Hs].
  - rewrite filter_cons_True by done. simpl.
    destruct (isArrayOrNull (keyed m).2) eqn:Hk.
    + rewrite storeMember_good by done. by apply IH.
    + rewrite storeMember_bad by done. split; [|done].
      intros Hnone.
      pose proof (fold_storeMember_saved ms
        (json.mkDecodeState (json.field d)
           (json.saveError (json.savedError d)
              (errors.UnmarshalTypeError
                 (json.kindName (json.kindOf (keyed m).2)))))) as Hsaved.
      rewrite Hnone in Hsaved. simpl in Hsaved. rewrite Hd in Hsaved.
      destruct Hsaved as [? ?]; [by eexists|done].
  - rewrite filter_cons_False by done.
    rewrite storeMember_skip by done. by apply IH.
Qed.

(** Without an error, the field ends as the last selected member left
    it, or as it was when no member is selected. *)
Lemma fold_storeMember_field ms d :
  forallb (λ kv, isArrayOrNull kv.2) (filter selects (map keyed ms)) = true →
  json.field (fold_left (json.storeMember "issues") ms d)
  = match last (filter selects (map keyed ms)) with
    | Some kv => stored kv.2
    | None => json.field d
    end.
Proof.
  revert d. induction ms as [|m ms IH]; intros d; [done|].
  simpl. destruct (decide (selects (keyed m))) as [Hs|Hs].
  - rewrite filter_cons_True by done. simpl.
    intros [Hk Hrest]%andb_prop.
    rewrite storeMember_good by done.
    rewrite IH by done. rewrite last_cons.
    by destruct (last (filter selects (map keyed ms))).
  - rewrite filter_cons_False by done.
    rewrite storeMember_skip by done. apply IH.
Qed.

End Decoding.

(** ** The elements of an array, in order *)

Section Elements.

Import json.

Lemma snoc_append (cur : string) (c : ascii) (e : string) :
  snoc cur c +:+ e = cur +:+ String c e.
Proof. unfold snoc. by rewrite append_assoc_eq. Qed.

Lemma split_outside_string (data : string) depth esc cur acc :
  split data depth false esc cur acc = split data depth false false cur acc.
Proof. by destruct data, esc. Qed.

(** Reading one whole value leaves the walk at the outermost level with
    the value appended to the current item. *)
Ltac walk_on IH :=
  let H := fresh in intros H; rewrite IH by done; by rewrite snoc_append.

Lemma split_encloses (e rest : string) depth inStr esc cur acc :
  encloses e depth inStr esc = true →
  split (e +:+ rest) depth inStr esc cur acc
  = split rest O false false (cur +:+ e) acc.
Proof.
  revert depth inStr esc cur.
  induction e as [|c e IH]; intros depth inStr esc cur.
  - simpl. destruct depth; [|done]. destruct inStr; [done|].
    intros _. by rewrite append_nil_l, append_nil_r, split_outside_string.
  - rewrite append_cons_eq. simpl.
    destruct inStr.
    + destruct esc; [walk_on IH|].
      destruct (Ascii.eqb c "\"); [walk_on IH|].
      destruct (Ascii.eqb c dquote); walk_on IH.
    + destruct (Ascii.eqb c dquote); [walk_on IH|].
      destruct (Ascii.eqb c "[" || Ascii.eqb c "{"); [walk_on IH|].
      destruct (Ascii.eqb c "]" || Ascii.eqb c "}").
      * destruct depth; [done|]. walk_on IH.
      * destruct depth; [|walk_on IH].
        destruct (Ascii.eqb c ","); [done|].
        destruct (isSpace c); [done|]. walk_on IH.
Qed.

Lemma split_comma (data cur : string) acc :
  split ("," +:+ data) O false false cur acc
  = split data O false false EmptyString (acc ++ [cur]).
Proof. reflexivity. Qed.

Lemma split_close (data cur : string) acc :
  cur ≠ EmptyString →
  split ("]" +:+ data) O false false cur acc = (acc ++ [cur])%list.
Proof. by destruct cur. Qed.

Lemma split_elements (es : list string) (rest : string) acc :
  es ≠ [] → Forall (λ e, element e = true) es →
  split (Go.Join es "," +:+ "]" +:+ rest) O false false EmptyString acc
  = (acc ++ es)%list.
Proof.
  revert acc. induction es as [|e es IH]; intros acc Hne Hall; [done|].
  apply Forall_cons in Hall as [He Hall].
  assert (e ≠ EmptyString ∧ encloses e O false false = true) as [Hnonempty Henc].
  { destruct e; [done|]. split; [done|]. exact He. }
  destruct es as [|e' es].
  - change (Go.Join [e] ",") with e.
    rewrite split_encloses by done. rewrite append_nil_l.
    by apply split_close.
  - change (Go.Join (e :: e' :: es) ",")
      with (e +:+ "," +:+ Go.Join (e' :: es) ",").
    rewrite !append_assoc_eq. rewrite split_encloses by done.
    rewrite append_nil_l, split_comma.
    rewrite IH by done. by rewrite <- app_assoc.
Qed.

End Elements.

(** The decoder's walk returns the elements of an array in the order of
    the text. *)
Lemma items_in_order (es : list string) :
  Forall (λ e, json.element e = true) es →
  json.items ("[" +:+ Go.Join es "," +:+ "]") = es.
Proof.
  intros Hall. rewrite append_cons_eq. unfold json.items.
  destruct es as [|e es]; [done|].
  rewrite append_nil_l.
  pose proof (split_elements (e :: es) EmptyString [] ltac:(done) Hall) as H.
  rewrite append_nil_r in H. exact H.
Qed.

Lemma Unmarshal_valid_iff blob :
  (json.Unmarshal blob "issues" []).2 = None ↔ validForIssues blob = true.
Proof.
  unfold json.Unmarshal, validForIssues, topKind, issuesMembers, members.
  destruct (json.Valid blob); simpl; [|done].
  destruct (json.kindOf (json.skipSpace blob)); simpl; try done.
  by apply fold_storeMember_error.
Qed.

Lemma Unmarshal_valid blob :
  validForIssues blob = true →
  json.Unmarshal blob "issues" [] = (issuesOf blob, None).
Proof.
  intros Hv. pose proof (proj2 (Unmarshal_valid_iff blob) Hv) as Herr.
  revert Hv Herr.
  unfold json.Unmarshal, validForIssues, issuesOf, topKind, issuesMembers, members.
  destruct (json.Valid blob); simpl; [|done].
  destruct (json.kindOf (json.skipSpace blob)); simpl; try done.
  intros Hv Herr. rewrite Herr. f_equal.
  by rewrite fold_storeMember_field.
Qed.


(** ** CollectEpics *)



Section CollectFacts.

Variable env : Collaborators.
Implicit Types (data : JiraTaskData).

(** The calls of [GetEpicKeysIterator] and its result, by what the
    collaborators answer. *)
Lemma GetEpicKeysIterator_cases data n :
  GetEpicKeysIterator env data n
  = match db_Cursor env (epic_keys_clauses data) with
    | inr e =>
        ([CallCursor (epic_keys_clauses data)],
         inr (errors.DefaultWrap e "unable to query for external epics"))
    | inl rows =>
        ([CallCursor (epic_keys_clauses data);
          CallNewBatchedDalCursorIterator rows reflect.String_ n],
         match iterator_failure env rows reflect.String_ n with
         | Some err => inr err
         | None => inl (mkIterator rows reflect.String_ n)
         end)
    end.
Proof.
  unfold GetEpicKeysIterator, Cursor, NewBatchedDalCursorIterator, call.
  unfold mbind, W_bind, mret, W_ret, reflect.TypeOf.
  destruct (db_Cursor env (epic_keys_clauses data)) as [rows|e]; simpl; [|done].
  by destruct (iterator_failure env rows reflect.String_ n).
Qed.

(** [CollectEpics] when the iterator could not be built. *)
Lemma CollectEpics_iterator_error data err :
  (GetEpicKeysIterator env data 100).2 = inr err →
  CollectEpics env data = ((GetEpicKeysIterator env data 100).1, Some err).
Proof.
  unfold CollectEpics, mbind, W_bind, mret, W_ret.
  destruct (GetEpicKeysIterator env data 100) as [calls [it|e]]; simpl;
    intros Heq; simplify_eq.
  by rewrite app_nil_r.
Qed.

(** [CollectEpics] when the iterator was built. *)
Lemma CollectEpics_iterator_ok data it :
  (GetEpicKeysIterator env data 100).2 = inl it →
  CollectEpics env data
  = let a := collector_args data (jql_clause (Since data)) it in
    ((GetEpicKeysIterator env data 100).1 ++
       CallNewApiCollector a ::
       match collector_failure env a with
       | Some _ => []
       | None => [CallExecute (mkApiCollector a)]
       end,
     match collector_failure env a with
     | Some err => Some err
     | None => collector_Execute env (mkApiCollector a)
     end)%list.
Proof.
  unfold CollectEpics, NewApiCollector, Execute, call.
  unfold mbind, W_bind, mret, W_ret.
  destruct (GetEpicKeysIterator env data 100) as [calls [it'|e]]; simpl;
    intros Heq; simplify_eq.
  by destruct (collector_failure env _).
Qed.

End CollectFacts.

(** C3: when the input query fails, or the batched cursor iterator cannot
    be built, [CollectEpics] returns that error at once (for the query,
    wrapped with "unable to query for external epics"): the calls it has
    made are the query alone, or the query and the iterator's
    construction; the collector is neither constructed nor executed, so
    no request goes out. *)
Theorem C3_source_error_before_collector
    (env : Collaborators) (data : JiraTaskData) (err : errors.Error)
    (Hfail : (GetEpicKeysIterator env data 100).2 = inr err) :
  (CollectEpics env data).2 = Some err
  ∧ Forall (λ ev, collector_call ev = false) (CollectEpics env data).1
  ∧ ((∃ e, db_Cursor env (epic_keys_clauses data) = inr e
           ∧ err = errors.DefaultWrap e "unable to query for external epics"
           ∧ (CollectEpics env data).1 = [CallCursor (epic_keys_clauses data)])
     ∨ (∃ rows, db_Cursor env (epic_keys_clauses data) = inl rows
           ∧ iterator_failure env rows reflect.String_ 100 = Some err
           ∧ (CollectEpics env data).1
             = [CallCursor (epic_keys_clauses data);
                CallNewBatchedDalCursorIterator rows reflect.String_ 100])).
Proof.
  rewrite (CollectEpics_iterator_error _ _ _ Hfail). simpl.
  revert Hfail. rewrite GetEpicKeysIterator_cases.
  destruct (db_Cursor env (epic_keys_clauses data)) as [rows|e]; simpl.
  - destruct (iterator_failure env rows reflect.String_ 100) as [e'|] eqn:Hit;
      intros Heq; simplify_eq.
    split; [done|]. split; [by repeat constructor|].
    right. by exists rows.
  - intros Heq; simplify_eq.
    split; [done|]. split; [by repeat constructor|].
    left. by exists e.
Qed.

Lemma C3_witness :
  (CollectEpics env_db_down sample_data).2
  = Some (errors.DefaultWrap (errors.DbError "connection refused")
            "unable to query for external epics").
Proof.
  apply (C3_source_error_before_collector env_db_down sample_data
           (errors.DefaultWrap (errors.DbError "connection refused")
              "unable to query for external epics")).
  reflexivity.
Defined.

(** C6: every collector [CollectEpics] constructs has Incremental false,
    as params the connection id and the board id of the task's options
    and nothing else, and the raw table "jira_api_epics"; it constructs
    one whenever the iterator was built.  Hence two runs whose options
    agree on ConnectionId and BoardId construct collectors with the same
    params and the same raw table: re-runs of one job. *)
Theorem C6_collector_identity (env : Collaborators) (data : JiraTaskData) :
  Forall (builds_epics_collector data) (CollectEpics env data).1
  ∧ (∀ it, (GetEpicKeysIterator env data 100).2 = inl it →
       CallNewApiCollector (collector_args data (jql_clause (Since data)) it)
         ∈ (CollectEpics env data).1)
  ∧ (∀ env' data' a a',
       Options.ConnectionId (Options_ data) = Options.ConnectionId (Options_ data') →
       Options.BoardId (Options_ data) = Options.BoardId (Options_ data') →
       CallNewApiCollector a ∈ (CollectEpics env data).1 →
       CallNewApiCollector a' ∈ (CollectEpics env' data').1 →
       same_job a a').
Proof.
  assert (∀ env data, Forall (builds_epics_collector data)
                        (CollectEpics env data).1) as Hall.
  { clear. intros env data.
    destruct (GetEpicKeysIterator env data 100).2 as [it|err] eqn:Hit.
    - rewrite (CollectEpics_iterator_ok _ _ _ Hit). simpl.
      rewrite GetEpicKeysIterator_cases.
      apply Forall_app. split.
      + destruct (db_Cursor env (epic_keys_clauses data)); by repeat constructor.
      + destruct (collector_failure env _); by repeat constructor.
    - rewrite (CollectEpics_iterator_error _ _ _ Hit). simpl.
      rewrite GetEpicKeysIterator_cases.
      destruct (db_Cursor env (epic_keys_clauses data)); by repeat constructor. }
  split; [apply Hall|]. split.
  - intros it Hit. rewrite (CollectEpics_iterator_ok _ _ _ Hit). simpl.
    apply elem_of_app. right. apply list_elem_of_here.
  - intros env' data' a a' Hc Hb Ha Ha'.
    pose proof (proj1 (Forall_forall _ _) (Hall env data) _ Ha) as (_ & Hp & Ht).
    pose proof (proj1 (Forall_forall _ _) (Hall env' data') _ Ha') as (_ & Hp' & Ht').
    unfold same_job. rewrite Hp, Hp', Ht, Ht', Hc, Hb. done.
Qed.

(** ** The input query *)

Section Query_rows.

Implicit Types (i : issue.t) (bi : board_issue.t).




End Query_rows.


(** ** The worker pool *)

Lemma running_bounded a resolve batches p :
  0 ≤ Concurrency a →
  engine.reachable a resolve batches p →
  Z.of_nat (length (engine.running p)) ≤ Concurrency a.
Proof.
  intros Hpos Hreach. induction Hreach as [|p p' Hreach IH Hstep]; simpl.
  - done.
  - destruct Hstep as [b bs q r s|bs t q r s Hfree|p r1 t r2 res Hrun
                      |p r1 t r2 err Hrun]; simpl in *.
    + done.
    + lia.
    + assert (length (r1 ++ r2) ≤ length (engine.running p))%nat as Hlen
        by (rewrite Hrun, !length_app; simpl; lia).
      unfold engine.finish.
      destruct (ResponseParser_ a res) as [records [e|]]; simpl; lia.
    + assert (length (r1 ++ r2) ≤ length (engine.running p))%nat as Hlen
        by (rewrite Hrun, !length_app; simpl; lia).
      lia.
Qed.

Lemma CollectEpics_collector_args env data a :
  CallNewApiCollector a ∈ (CollectEpics env data).1 →
  ∃ it, a = collector_args data (jql_clause (Since data)) it.
Proof.
  destruct (GetEpicKeysIterator env data 100).2 as [it|err] eqn:Hit.
  - rewrite (CollectEpics_iterator_ok _ _ _ Hit). simpl.
    rewrite GetEpicKeysIterator_cases.
    intros Hin. exists it.
    destruct (db_Cursor env (epic_keys_clauses data));
      destruct (collector_failure env _);
      repeat (apply elem_of_cons in Hin as [Hin|Hin]; simplify_eq; try done);
      by apply elem_of_nil in Hin.
  - rewrite (CollectEpics_iterator_error _ _ _ Hit). simpl.
    rewrite GetEpicKeysIterator_cases. intros Hin.
    destruct (db_Cursor env (epic_keys_clauses data));
      repeat (apply elem_of_cons in Hin as [Hin|Hin]; simplify_eq; try done);
      by apply elem_of_nil in Hin.
Qed.

(** C5: the collector [CollectEpics] constructs is configured with
    Concurrency 10, and in every state its run passes through, whatever
    the batches, the responses and their order, at most 10 page-fetch
    tasks are executing. *)
Theorem C5_concurrency_bound
    (env : Collaborators) (data : JiraTaskData) (a : ApiCollectorArgs)
    (resolve : http.Response → option Z) (batches : list (list string))
    (p : engine.Pool)
    (Hbuilt : CallNewApiCollector a ∈ (CollectEpics env data).1)
    (Hreach : engine.reachable a resolve batches p) :
  Concurrency a = 10
  ∧ Z.of_nat (length (engine.running p)) ≤ Concurrency a
  ∧ (length (engine.running p) ≤ 10)%nat.
Proof.
  destruct (CollectEpics_collector_args _ _ _ Hbuilt) as [it ->].
  pose proof (running_bounded _ resolve batches p
                (ltac:(done) : 0 ≤ Concurrency (collector_args data
                                   (jql_clause (Since data)) it)) Hreach)
    as Hle.
  simpl in *. split; [done|]. split; lia.
Qed.

Lemma C5_witness :
  Concurrency sample_args = 10
  ∧ Z.of_nat (length (engine.running sample_pool)) ≤ Concurrency sample_args
  ∧ (length (engine.running sample_pool) ≤ 10)%nat.
Proof.
  apply (C5_concurrency_bound env_ok sample_data sample_args (λ _, None)
           [["EPIC-1"; "EPIC-2"]] sample_pool).
  - do 2 apply list_elem_of_further. apply list_elem_of_here.
  - eapply engine.reach_step.
    + eapply engine.reach_step; [apply engine.reach_init|].
      apply (engine.step_pull sample_args (λ _, None)
               ["EPIC-1"; "EPIC-2"] [] [] [] []).
    + apply (engine.step_start sample_args (λ _, None) []
               (engine.mkTask ["EPIC-1"; "EPIC-2"] 0 None) [] [] []).
      simpl. lia.
Defined.

(** ** Bodies without issues *)

Lemma all_null_valid blob :
  Forall (λ kv, json.kindOf kv.2 = json.KNull) (issuesMembers blob) →
  forallb (λ m, isArrayOrNull m.2) (issuesMembers blob) = true
  ∧ match last (issuesMembers blob) with
    | Some kv => stored kv.2
    | None => []
    end = [].
Proof.
  induction 1 as [|kv l Hkv Hl [IH1 IH2]]; [done|].
  split.
  - simpl. rewrite IH1. unfold isArrayOrNull. by rewrite Hkv.
  - rewrite last_cons. destruct (last l); [done|].
    unfold stored. by rewrite Hkv.
Qed.

(** C10, as the code has it: when the body is read whole and is
    well-formed JSON whose top-level value is an object or null, and the
    object has no member named "issues" (up to letter case), or only
    such members that hold null, [ResponseParser] returns the empty
    record sequence and no error; the engine's stop condition holds for
    such a page, whatever the page index and the total. *)
Theorem C10_object_without_issues (res : http.Response)
    (Hread : (io.ReadAll (http.Body res)).2 = None)
    (Hvalid : json.Valid (io.ReadAll (http.Body res)).1 = true)
    (Htop : topKind (io.ReadAll (http.Body res)).1 = json.KObject
            ∨ topKind (io.ReadAll (http.Body res)).1 = json.KNull)
    (Hnull : Forall (λ kv, json.kindOf kv.2 = json.KNull)
               (issuesMembers (io.ReadAll (http.Body res)).1)) :
  ResponseParser res = ([], None)
  ∧ ∀ pageIndex totalPages,
      engine.stop_condition pageIndex totalPages (ResponseParser res).1 = true.
Proof.
  destruct (all_null_valid _ Hnull) as [Hall Hlast].
  assert (validForIssues (io.ReadAll (http.Body res)).1 = true) as Hv.
  { unfold validForIssues. rewrite Hvalid. simpl.
    destruct Htop as [-> | ->]; done. }
  assert (issuesOf (io.ReadAll (http.Body res)).1 = []) as Hnone.
  { unfold issuesOf. destruct Htop as [-> | ->]; done. }
  assert (ResponseParser res = ([], None)) as Hres.
  { unfold ResponseParser.
    destruct (io.ReadAll (http.Body res)) as [blob [e|]]; simpl in *; [done|].
    rewrite (Unmarshal_valid _ Hv). by rewrite Hnone. }
  split; [done|]. intros pageIndex totalPages. rewrite Hres. simpl.
  unfold engine.stop_condition. by rewrite orb_true_r.
Qed.

Lemma C10_witness :
  ResponseParser (response_of (json.text "{'total': 0, 'issues': null}"))
  = ([], None).
Proof.
  apply (C10_object_without_issues
           (response_of (json.text "{'total': 0, 'issues': null}"))).
  - reflexivity.
  - vm_compute. reflexivity.
  - left. vm_compute. reflexivity.
  - vm_compute. repeat constructor.
Defined.

(** C10 as stated fails: the body [] is well-formed JSON and has no
    member named issues, and [ResponseParser] returns an error for it. *)
Lemma C10_counterexample :
  json.Valid "[]" = true
  ∧ issuesMembers "[]" = []
  ∧ ResponseParser (response_of "[]")
    = ([], Some (errors.Convert (errors.UnmarshalTypeError "array")))
  ∧ ResponseParser (response_of "[]") ≠ ([], None).
Proof. vm_compute. repeat split. discriminate. Qed.

(** X1: [Query] returns exactly when its input is a []interface{} of
    non-nil *string and its pager is not nil; it never returns an error
    value. *)
Theorem X1_Query_returns_iff (req : helper.RequestData) (st : State) :
  ((∃ r, (Query req st).1 = Go.Returned r)
     ↔ well_shaped (helper.Input req) = true ∧ is_Some (helper.Pager_ req))
  ∧ ∀ query err, (Query req st).1 = Go.Returned (query, err) → err = None.
Proof.
  destruct req as [pager input]; simpl.
  destruct (well_shaped input) eqn:Hshape.
  - destruct (well_shaped_batch _ Hshape) as [ptrs ->].
    destruct pager as [pl|].
    + rewrite Query_batch. simpl. split.
      * split; [intros _; split; [done|by eexists]|intros _; by eexists].
      * intros query err Heq. by simplify_eq.
    + unfold Query, mbind, M_bind; simpl.
      rewrite range_input_batch. simpl. split.
      * split; [by intros [r Hr]|by intros [_ [? ?]]].
      * done.
  - apply well_shaped_fault in Hshape as [p Hp].
    rewrite (input_fault_panics (helper.mkRequestData pager input) st p Hp).
    simpl. split.
    + split; [by intros [r Hr]|by intros [? _]].
    + done.
Qed.

(** X2: once the iterator is built, [CollectEpics] constructs the
    collector next; if that fails it returns the error and executes
    nothing, otherwise it executes the collector and returns what
    [Execute] returns. *)
Theorem X2_CollectEpics_collector_path
    (env : Collaborators) (data : JiraTaskData) (it : Iterator)
    (Hit : (GetEpicKeysIterator env data 100).2 = inl it) :
  let a := collector_args data (jql_clause (Since data)) it in
  match collector_failure env a with
  | Some err =>
      CollectEpics env data
      = (((GetEpicKeysIterator env data 100).1 ++ [CallNewApiCollector a])%list,
         Some err)
  | None =>
      CollectEpics env data
      = (((GetEpicKeysIterator env data 100).1
          ++ [CallNewApiCollector a; CallExecute (mkApiCollector a)])%list,
         collector_Execute env (mkApiCollector a))
  end.
Proof.
  simpl. rewrite (CollectEpics_iterator_ok _ _ _ Hit). simpl.
  by destruct (collector_failure env _).
Qed.

Lemma X2_witness :
  CollectEpics env_ok sample_data
  = ([CallCursor (epic_keys_clauses sample_data);
      CallNewBatchedDalCursorIterator ["EPIC-1"; "EPIC-2"] reflect.String_ 100;
      CallNewApiCollector sample_args;
      CallExecute (mkApiCollector sample_args)],
     None).
Proof.
  apply (X2_CollectEpics_collector_path env_ok sample_data
           (mkIterator ["EPIC-1"; "EPIC-2"] reflect.String_ 100)).
  reflexivity.
Defined.

(** * Further properties *)

(** ** Reading the body *)

Lemma ReadAll_reader_of chunks :
  io.ReadAll (reader_of chunks) = (bytes_of chunks, None).
Proof.
  induction chunks as [|chunk rest IH]; [done|].
  simpl. by rewrite IH.
Qed.

Lemma ReadAll_failing_reader chunks err :
  (io.ReadAll (failing_reader chunks err)).2 = Some err.
Proof.
  induction chunks as [|chunk rest IH]; [done|].
  simpl. by destruct (io.ReadAll (failing_reader rest err)).
Qed.

Lemma ResponseParser_bytes status r body :
  io.ReadAll r = (body, None) →
  ResponseParser (http.mkResponse status r)
  = match json.Unmarshal body "issues" [] with
    | (_, Some err) => ([], Some (errors.Convert err))
    | (recs, None) => (recs, None)
    end.
Proof.
  intros Hread. unfold ResponseParser. simpl. rewrite Hread.
  by destruct (json.Unmarshal body "issues" []) as [recs [e|]].
Qed.

(** X3: [ResponseParser] looks at nothing but the bytes of the body.
    However the body is cut into chunks, and whatever the status code,
    the result is that of the same bytes arriving whole with status 200;
    and when a read fails, the result is that read's error, whatever was
    read before. *)
Theorem X3_ResponseParser_reads_bytes_only
    (status : Z) (chunks : list string) (err : errors.GoError) :
  ResponseParser (http.mkResponse status (reader_of chunks))
    = ResponseParser (response_of (bytes_of chunks))
  ∧ ResponseParser (http.mkResponse status (failing_reader chunks err))
    = ([], Some (errors.Convert err)).
Proof.
  split.
  - rewrite (ResponseParser_bytes status _ _ (ReadAll_reader_of chunks)).
    unfold response_of.
    rewrite (ResponseParser_bytes 200 (io.Chunk (bytes_of chunks) io.EOF)
               (bytes_of chunks)); [done|].
    simpl. by rewrite append_nil_r.
  - unfold ResponseParser. simpl.
    pose proof (ReadAll_failing_reader chunks err) as Hfail.
    destruct (io.ReadAll (failing_reader chunks err)) as [blob e].
    simpl in Hfail. by subst e.
Qed.

(** ** White space around the body, and bodies of white space *)

Lemma scan_blank ws s :
  blank ws = true → json.scan json.reset (ws +:+ s) = json.scan json.reset s.
Proof.
  induction ws as [|c ws IH]; [done|].
  rewrite append_cons_eq. simpl. intros [Hc Hws]%andb_prop.
  unfold json.scan_step, json.doBeginValue. simpl. rewrite Hc. by apply IH.
Qed.



(** *** White space after the body *)

Section TrailingSpace.

Import json.














End TrailingSpace.



(** X5: an empty body, or one of white space only, is no empty page: it
    is a syntax error. *)
Theorem X5_ResponseParser_blank_body (ws : string) (Hws : blank ws = true) :
  ResponseParser (response_of ws) = ([], Some (errors.Convert errors.SyntaxError))
  ∧ ResponseParser (http.mkResponse 200 io.EOF)
    = ([], Some (errors.Convert errors.SyntaxError)).
Proof.
  split; [|done].
  unfold response_of.
  rewrite (ResponseParser_bytes 200 _ ws); [|simpl; by rewrite append_nil_r].
  unfold json.Unmarshal, json.Valid.
  rewrite <- (append_nil_r ws), scan_blank by done. done.
Qed.

Lemma X5_witness :
  ResponseParser (response_of (String " " (String "010" "")))
  = ([], Some (errors.Convert errors.SyntaxError)).
Proof.
  apply (X5_ResponseParser_blank_body (String " " (String "010" ""))).
  reflexivity.
Defined.

(** ** Which error *)

Lemma kindName_type_error k :
  k ≠ json.KNull → json.kindName k ∈ type_error_names.
Proof.
  unfold type_error_names. destruct k; simpl; intros Hk; try done;
    repeat (first [apply list_elem_of_here | apply list_elem_of_further]).
Qed.

Lemma storeMember_saved_shape d m e :
  json.savedError (json.storeMember "issues" d m) = Some e →
  json.savedError d = Some e
  ∨ ∃ name, name ∈ type_error_names ∧ e = errors.UnmarshalTypeError name.
Proof.
  destruct (decide (selects (keyed m))) as [Hs|Hs].
  - destruct (isArrayOrNull (keyed m).2) eqn:Hk.
    + rewrite storeMember_good by done. simpl. by left.
    + rewrite storeMember_bad by done. simpl.
      destruct (json.savedError d) as [e0|]; simpl; [by left|].
      intros Heq. simplify_eq. right. eexists. split; [|done].
      apply kindName_type_error. intros Hnull.
      unfold isArrayOrNull in Hk. by rewrite Hnull in Hk.
  - rewrite storeMember_skip by done. by left.
Qed.

Lemma fold_storeMember_saved_shape ms d e :
  json.savedError (fold_left (json.storeMember "issues") ms d) = Some e →
  json.savedError d = Some e
  ∨ ∃ name, name ∈ type_error_names ∧ e = errors.UnmarshalTypeError name.
Proof.
  revert d. induction ms as [|m ms IH]; intros d; [by left|].
  simpl. intros [Hd|Hname]%IH; [|by right].
  by apply (storeMember_saved_shape d m).
Qed.

Lemma Unmarshal_error_shape blob recs e :
  json.Unmarshal blob "issues" [] = (recs, Some e) →
  (json.Valid blob = false ∧ e = errors.SyntaxError)
  ∨ (json.Valid blob = true
     ∧ ∃ name, name ∈ type_error_names ∧ e = errors.UnmarshalTypeError name).
Proof.
  unfold json.Unmarshal.
  destruct (json.Valid blob); [|intros Heq; simplify_eq; by left].
  intros Heq. right. split; [done|].
  destruct (json.kindOf (json.skipSpace blob)) eqn:Hk; simplify_eq;
    try (eexists; split; [|done]; by apply kindName_type_error).
  match goal with
  | H : json.savedError ?f = Some e |- _ =>
      apply fold_storeMember_saved_shape in H as [H|H]; [done|exact H]
  end.
Qed.

(** X6: the error of [ResponseParser] tells what went wrong.  A failed
    read gives that read's error; bytes that are not well-formed JSON
    give a syntax error; well-formed JSON of the wrong shape gives a type
    error naming the kind of value met (array, object, string, number or
    bool, never null); every error is converted, none wrapped. *)
Theorem X6_ResponseParser_error_kinds (res : http.Response) :
  let blob := (io.ReadAll (http.Body res)).1 in
  match (io.ReadAll (http.Body res)).2 with
  | Some readErr => ResponseParser res = ([], Some (errors.Convert readErr))
  | None =>
      if json.Valid blob then
        (ResponseParser res).2 = None
        ∨ ∃ name, name ∈ type_error_names
                  ∧ ResponseParser res
                    = ([], Some (errors.Convert (errors.UnmarshalTypeError name)))
      else ResponseParser res = ([], Some (errors.Convert errors.SyntaxError))
  end.
Proof.
  simpl. unfold ResponseParser.
  destruct (io.ReadAll (http.Body res)) as [blob [readErr|]]; simpl; [done|].
  destruct (json.Unmarshal blob "issues" []) as [recs [e|]] eqn:Hu.
  - apply Unmarshal_error_shape in Hu as [[-> ->]|[-> (name & Hname & ->)]];
      [done|]. right. by exists name.
  - destruct (json.Valid blob) eqn:Hv; [by left|].
    unfold json.Unmarshal in Hu. rewrite Hv in Hu. done.
Qed.

(** ** What Query reads *)

Lemma batch_keys_agree (st st' : State) (ptrs : list Go.loc) :
  Forall (λ l, strings st l = strings st' l) ptrs →
  batch_keys st ptrs = batch_keys st' ptrs.
Proof.
  unfold batch_keys. induction 1 as [|l ptrs Hl _ IH]; [done|].
  simpl. by rewrite Hl, IH.
Qed.

(** X7: [Query] reads the captured jql, the strings its batch points to
    and the pager's Skip and Size, and nothing else: the pager's Page and
    every other cell of memory may change without changing the
    parameters it returns. *)
Theorem X7_Query_frame (st st' : State) (ptrs : list Go.loc) (pl pl' : Go.loc)
    (Hjql : jql st = jql st')
    (Hkeys : Forall (λ l, strings st l = strings st' l) ptrs)
    (Hskip : helper.Skip (pagers st pl) = helper.Skip (pagers st' pl'))
    (Hsize : helper.Size (pagers st pl) = helper.Size (pagers st' pl')) :
  (Query (helper.mkRequestData (Some pl) (batch_input ptrs)) st).1
  = (Query (helper.mkRequestData (Some pl') (batch_input ptrs)) st').1.
Proof.
  rewrite !Query_batch. simpl. unfold expected_values.
  by rewrite Hjql, Hskip, Hsize, (batch_keys_agree _ _ _ Hkeys).
Qed.

Lemma X7_witness :
  (Query (helper.mkRequestData (Some 5%positive) (batch_input [1%positive]))
     (mkState "ORDER BY created ASC" (λ _, "EPIC-1")
        (λ _, helper.mkPager 1 0 100))).1
  = (Query (helper.mkRequestData (Some 6%positive) (batch_input [1%positive]))
       (mkState "ORDER BY created ASC"
          (λ l, if (l =? 1)%positive then "EPIC-1" else "OTHER")
          (λ _, helper.mkPager 7 0 100))).1.
Proof.
  apply (X7_Query_frame
           (mkState "ORDER BY created ASC" (λ _, "EPIC-1")
              (λ _, helper.mkPager 1 0 100))
           (mkState "ORDER BY created ASC"
              (λ l, if (l =? 1)%positive then "EPIC-1" else "OTHER")
              (λ _, helper.mkPager 7 0 100))
           [1%positive] 5%positive 6%positive).
  - reflexivity.
  - repeat constructor.
  - reflexivity.
  - reflexivity.
Defined.

(** ** The successful run *)

(** X8: [CollectEpics] returns nil only along the whole path: the query
    yielded a cursor, the iterator and the collector were built, the
    collector was executed, once, and [Execute] returned nil.  The calls
    are then these four, in this order. *)
Theorem X8_CollectEpics_success (env : Collaborators) (data : JiraTaskData)
    (Hok : (CollectEpics env data).2 = None) :
  ∃ rows,
    let it := mkIterator rows reflect.String_ 100 in
    let a := collector_args data (jql_clause (Since data)) it in
    db_Cursor env (epic_keys_clauses data) = inl rows
    ∧ iterator_failure env rows reflect.String_ 100 = None
    ∧ collector_failure env a = None
    ∧ collector_Execute env (mkApiCollector a) = None
    ∧ (CollectEpics env data).1
      = [CallCursor (epic_keys_clauses data);
         CallNewBatchedDalCursorIterator rows reflect.String_ 100;
         CallNewApiCollector a;
         CallExecute (mkApiCollector a)].
Proof.
  destruct (GetEpicKeysIterator env data 100).2 as [it|err] eqn:Hit.
  - rewrite (CollectEpics_iterator_ok _ _ _ Hit) in Hok |- *.
    revert Hit Hok. rewrite GetEpicKeysIterator_cases. simpl.
    destruct (db_Cursor env (epic_keys_clauses data)) as [rows|e]; simpl;
      [|done].
    destruct (iterator_failure env rows reflect.String_ 100) eqn:Hfail;
      [done|].
    intros Heq; simplify_eq.
    destruct (collector_failure env _) eqn:Hc; [done|].
    intros Hex. by exists rows.
  - by rewrite (CollectEpics_iterator_error _ _ _ Hit) in Hok.
Qed.

Lemma X8_witness :
  ∃ rows,
    db_Cursor env_ok (epic_keys_clauses sample_data) = inl rows
    ∧ iterator_failure env_ok rows reflect.String_ 100 = None
    ∧ collector_failure env_ok
        (collector_args sample_data (jql_clause (Since sample_data))
           (mkIterator rows reflect.String_ 100)) = None
    ∧ collector_Execute env_ok
        (mkApiCollector
           (collector_args sample_data (jql_clause (Since sample_data))
              (mkIterator rows reflect.String_ 100))) = None
    ∧ (CollectEpics env_ok sample_data).1
      = [CallCursor (epic_keys_clauses sample_data);
         CallNewBatchedDalCursorIterator rows reflect.String_ 100;
         CallNewApiCollector
           (collector_args sample_data (jql_clause (Since sample_data))
              (mkIterator rows reflect.String_ 100));
         CallExecute
           (mkApiCollector
              (collector_args sample_data (jql_clause (Since sample_data))
                 (mkIterator rows reflect.String_ 100)))].
Proof.
  apply (X8_CollectEpics_success env_ok sample_data). reflexivity.
Defined.

(** ** A page of issues, from text to records *)

Section RoundTrip.

Import json.

(** A whole value read at a deeper level leaves the walk at that level. *)
Lemma encloses_deeper (e rest : string) k d inStr esc :
  encloses e k inStr esc = true →
  encloses (e +:+ rest) (k + S d) inStr esc = encloses rest (S d) false false.
Proof.
  revert k inStr esc. induction e as [|c e IH]; intros k inStr esc.
  - simpl. destruct k; [|done]. destruct inStr; [done|]. intros _.
    rewrite append_nil_l. by destruct rest, esc.
  - rewrite append_cons_eq. simpl. destruct inStr.
    + destruct esc; [apply IH|].
      destruct (Ascii.eqb c "\"); [apply IH|].
      destruct (Ascii.eqb c dquote); apply IH.
    + destruct (Ascii.eqb c dquote); [apply IH|].
      destruct (Ascii.eqb c "[" || Ascii.eqb c "{"); [apply (IH (S k))|].
      destruct (Ascii.eqb c "]" || Ascii.eqb c "}").
      * destruct k; [done|]. apply IH.
      * destruct k; simpl; [|apply (IH (S k))].
        destruct (Ascii.eqb c ","); [done|].
        destruct (isSpace c); [done|]. apply (IH O).
Qed.

Lemma encloses_comma_deeper (s : string) d :
  encloses ("," +:+ s) (S d) false false = encloses s (S d) false false.
Proof. reflexivity. Qed.

Lemma encloses_elements (es : list string) (rest : string) d :
  Forall (λ e, element e = true) es →
  encloses (Go.Join es "," +:+ "]" +:+ rest) (S d) false false
  = encloses rest d false false.
Proof.
  induction 1 as [|e es He Hes IH]; [done|].
  assert (encloses e O false false = true) as Henc by (by destruct e).
  destruct es as [|e' es].
  - change (Go.Join [e] ",") with e.
    rewrite (encloses_deeper e _ O d false false Henc). done.
  - change (Go.Join (e :: e' :: es) ",")
      with (e +:+ "," +:+ Go.Join (e' :: es) ",").
    rewrite !append_assoc_eq.
    rewrite (encloses_deeper e _ O d false false Henc).
    rewrite encloses_comma_deeper. exact IH.
Qed.

Lemma encloses_array (es : list string) (rest : string) d :
  Forall (λ e, element e = true) es →
  encloses (array_text es +:+ rest) d false false
  = encloses rest d false false.
Proof.
  intros Hes. unfold array_text.
  rewrite !append_assoc_eq, append_cons_eq, append_nil_l. simpl.
  by apply encloses_elements.
Qed.

Lemma encloses_plain (k rest : string) d :
  plainKey k = true →
  encloses (k +:+ String dquote rest) d true false
  = encloses rest d false false.
Proof.
  induction k as [|c k IH].
  - intros _. by rewrite append_nil_l.
  - rewrite append_cons_eq. simpl.
    intros [[[_ Hq%negb_true_iff]%andb_prop Hb%negb_true_iff]%andb_prop Hk]%andb_prop.
    rewrite Hb, Hq. by apply IH.
Qed.

Lemma takeString_plain (k rest : string) :
  plainKey k = true →
  takeString (k +:+ String dquote rest) false = (k, rest).
Proof.
  induction k as [|c k IH].
  - intros _. by rewrite append_nil_l.
  - rewrite append_cons_eq. simpl.
    intros [[[_ Hq%negb_true_iff]%andb_prop Hb%negb_true_iff]%andb_prop Hk]%andb_prop.
    rewrite Hb, Hq. by rewrite IH.
Qed.

Lemma unquote_plain (k : string) : plainKey k = true → unquote k = k.
Proof.
  induction k as [|c k IH]; [done|].
  simpl.
  intros [[[Ha Hq]%andb_prop Hb%negb_true_iff]%andb_prop Hk]%andb_prop.
  rewrite Hb, Ha. by rewrite IH.
Qed.

Lemma encloses_quote (s : string) :
  encloses (String dquote s) O false false = encloses s O true false.
Proof. reflexivity. Qed.

Lemma encloses_colon (s : string) :
  encloses (":" +:+ s) O false false = encloses s O false false.
Proof. reflexivity. Qed.

Lemma member_encloses (k : string) (es : list string) :
  plainKey k = true → Forall (λ e, element e = true) es →
  encloses (member_text k (array_text es)) O false false = true.
Proof.
  intros Hk Hes. unfold member_text.
  rewrite encloses_quote, encloses_plain, encloses_colon by done.
  rewrite <- (append_nil_r (array_text es)).
  by rewrite encloses_array.
Qed.

Lemma items_issues_body (k : string) (es : list string) :
  plainKey k = true → Forall (λ e, element e = true) es →
  items (issues_body k es) = [member_text k (array_text es)].
Proof.
  intros Hk Hes. unfold issues_body.
  rewrite append_cons_eq, append_nil_l. unfold items.
  rewrite split_encloses by (by apply member_encloses).
  rewrite append_nil_l. unfold member_text. reflexivity.
Qed.

Lemma keyed_member (k value : string) :
  plainKey k = true → keyed (member_text k value) = (k, value).
Proof.
  intros Hk. unfold keyed, splitMember, member_text.
  rewrite takeString_plain by done.
  rewrite append_cons_eq, append_nil_l. by rewrite unquote_plain.
Qed.

End RoundTrip.

(** X9: a well-formed body that is an object with the one member
    "issues":[e1,...,en] gives back exactly e1, ..., en, each as the bytes
    that encode it, in order and without an error; and so it does when
    the key is written in other letter case (Issues, ISSUES, ...). *)
Theorem X9_ResponseParser_round_trip (k : string) (es : list string)
    (Hplain : plainKey k = true)
    (Hkey : json.matchesField "issues" k = true)
    (Hes : Forall (λ e, json.element e = true) es)
    (Hvalid : json.Valid (issues_body k es) = true) :
  ResponseParser (response_of (issues_body k es)) = (es, None).
Proof.
  unfold response_of.
  rewrite (ResponseParser_bytes 200 _ (issues_body k es));
    [|simpl; by rewrite append_nil_r].
  unfold json.Unmarshal. rewrite Hvalid.
  change (json.skipSpace (issues_body k es)) with (issues_body k es).
  change (json.kindOf (issues_body k es)) with json.KObject.
  rewrite items_issues_body by done. simpl.
  rewrite storeMember_good.
  - simpl. rewrite keyed_member by done. simpl.
    unfold stored, array_text.
    change (json.kindOf ("[" +:+ Go.Join es "," +:+ "]")) with json.KArray.
    by rewrite items_in_order.
  - unfold selects. by rewrite keyed_member.
  - by rewrite keyed_member.
Qed.

Lemma X9_witness :
  ResponseParser
    (response_of
       (issues_body "Issues" (map json.text ["{'id': 1}"; "[2, 3]"; "null"])))
  = (map json.text ["{'id': 1}"; "[2, 3]"; "null"], None).
Proof.
  apply (X9_ResponseParser_round_trip "Issues"
           (map json.text ["{'id': 1}"; "[2, 3]"; "null"])).
  - reflexivity.
  - vm_compute. reflexivity.
  - repeat constructor.
  - vm_compute. reflexivity.
Defined.

(** ** From the request back to the batch *)

Lemma length_append (a b : string) :
  String.length (a +:+ b) = (String.length a + String.length b)%nat.
Proof.
  induction a as [|c a IH]; [done|].
  rewrite append_cons_eq. simpl. by rewrite IH.
Qed.

Lemma append_inj_r (a b c : string) : a +:+ c = b +:+ c → a = b.
Proof.
  intros Heq.
  assert (String.length a = String.length b) as Hlen.
  { apply (f_equal String.length) in Heq. rewrite !length_append in Heq. lia. }
  revert b Heq Hlen. induction a as [|x a IH]; intros [|y b]; try done.
  rewrite !append_cons_eq. intros Heq Hlen. simplify_eq/=.
  f_equal. by apply IH.
Qed.

Lemma Join_cons (e : string) (rest : list string) :
  Go.Join (e :: rest) "," = e +:+ joined_tail rest.
Proof.
  destruct rest as [|e' rest]; [|done].
  simpl. by rewrite append_nil_r.
Qed.

(** A comma-free key ends where the joined string has its first comma,
    or where the string ends. *)
Lemma key_split (e e' : string) (r r' : list string) :
  comma_free e = true → comma_free e' = true →
  e +:+ joined_tail r = e' +:+ joined_tail r' →
  e = e' ∧ joined_tail r = joined_tail r'.
Proof.
  revert e'. induction e as [|c e IH]; intros [|c' e'] He He'.
  - by rewrite !append_nil_l.
  - rewrite append_nil_l, append_cons_eq. simpl in He'.
    apply andb_prop in He' as [Hc'%negb_true_iff _].
    destruct r as [|x r]; [done|]. unfold joined_tail at 1.
    rewrite append_cons_eq. intros Heq. simplify_eq.
  - rewrite append_nil_l, append_cons_eq. simpl in He.
    apply andb_prop in He as [Hc%negb_true_iff _].
    destruct r' as [|x r']; [done|]. unfold joined_tail at 2.
    rewrite append_cons_eq. intros Heq. simplify_eq.
  - rewrite !append_cons_eq. simpl in He, He'.
    apply andb_prop in He as [_ He]. apply andb_prop in He' as [_ He'].
    intros Heq. simplify_eq.
    destruct (IH e' He He' ltac:(done)) as [-> Ht]. done.
Qed.

Lemma Join_inj (es es' : list string) :
  Forall (λ k, plain_epic_key k = true) es →
  Forall (λ k, plain_epic_key k = true) es' →
  Go.Join es "," = Go.Join es' "," → es = es'.
Proof.
  intros Hes. revert es'.
  induction Hes as [|e r He Hr IH]; intros es' Hes' Heq.
  - destruct Hes' as [|e' r' He' Hr']; [done|].
    rewrite Join_cons in Heq. by destruct e'.
  - destruct Hes' as [|e' r' He' Hr'].
    + rewrite Join_cons in Heq. by destruct e.
    + rewrite !Join_cons in Heq.
      assert (comma_free e = true) as Hc by (by destruct e).
      assert (comma_free e' = true) as Hc' by (by destruct e').
      destruct (key_split e e' r r' Hc Hc' Heq) as [-> Ht].
      f_equal. apply IH; [done|].
      destruct r as [|x r], r' as [|x' r']; try done.
      unfold joined_tail in Ht. rewrite !append_cons_eq in Ht.
      by simplify_eq.
Qed.

(** X10: the request tells the batch.  When the keys are not empty (the
    input query yields none that is) and hold no comma, two invocations
    of [Query] under the same jql that return the same "jql" parameter
    were given batches with the same keys in the same order. *)
Theorem X10_Query_jql_determines_batch
    (st st' : State) (ptrs ptrs' : list Go.loc) (pl pl' : Go.loc)
    (q q' : Go.Values)
    (Hjql : jql st = jql st')
    (Hkeys : Forall (λ k, plain_epic_key k = true) (batch_keys st ptrs))
    (Hkeys' : Forall (λ k, plain_epic_key k = true) (batch_keys st' ptrs'))
    (Hq : (Query (helper.mkRequestData (Some pl) (batch_input ptrs)) st).1
          = Go.Returned (q, None))
    (Hq' : (Query (helper.mkRequestData (Some pl') (batch_input ptrs')) st').1
           = Go.Returned (q', None))
    (Hsame : q !! "jql" = q' !! "jql") :
  batch_keys st ptrs = batch_keys st' ptrs'.
Proof.
  rewrite Query_batch in Hq, Hq'.
  cbn [fst] in Hq, Hq'.
  injection Hq as Hq. injection Hq' as Hq'. subst q q'.
  unfold expected_values in Hsame.
  rewrite !lookup_insert_ne, !lookup_insert_eq in Hsame by done.
  assert (∀ a b : string, Some [a] = Some [b] → a = b) as Hinj
    by (intros a b H; congruence).
  apply Hinj in Hsame.
  apply (inj (String.append "issue in (")) in Hsame.
  rewrite Hjql, <- !append_assoc_eq in Hsame.
  do 2 apply append_inj_r in Hsame.
  by apply Join_inj.
Qed.

Lemma X10_witness :
  batch_keys (mkState "ORDER BY created ASC"
                (λ l, if (l =? 1)%positive then "EPIC-1" else "EPIC-2")
                (λ _, helper.mkPager 1 0 100)) [1; 2]%positive
  = batch_keys (mkState "ORDER BY created ASC"
                  (λ l, if (l =? 7)%positive then "EPIC-1" else "EPIC-2")
                  (λ _, helper.mkPager 3 200 100)) [7; 9]%positive.
Proof.
  eapply (X10_Query_jql_determines_batch _ _ _ _ 3%positive 4%positive).
  - reflexivity.
  - repeat constructor.
  - repeat constructor.
  - apply (f_equal fst (Query_batch _ _ _)).
  - apply (f_equal fst (Query_batch _ _ _)).
  - reflexivity.
Defined.

(** X11: [Query] writes the keys into the jql as they are, without
    quoting them: one key that holds a comma gives the very parameters
    that its two halves give as two keys. *)
Theorem X11_Query_does_not_quote_keys
    (st st' : State) (l l1 l2 pl pl' : Go.loc)
    (Hjql : jql st = jql st')
    (Hpager : pagers st pl = pagers st' pl')
    (Hkey : strings st l = strings st' l1 +:+ "," +:+ strings st' l2) :
  (Query (helper.mkRequestData (Some pl) (batch_input [l])) st).1
  = (Query (helper.mkRequestData (Some pl') (batch_input [l1; l2])) st').1.
Proof.
  rewrite !Query_batch. simpl. unfold expected_values.
  by rewrite Hjql, Hpager, Hkey.
Qed.

Lemma X11_witness :
  (Query (helper.mkRequestData (Some 5%positive) (batch_input [1%positive]))
     (mkState "ORDER BY created ASC" (λ _, "A-1,B-2")
        (λ _, helper.mkPager 1 0 100))).1
  = (Query (helper.mkRequestData (Some 5%positive)
              (batch_input [1%positive; 2%positive]))
       (mkState "ORDER BY created ASC"
          (λ l, if (l =? 1)%positive then "A-1" else "B-2")
          (λ _, helper.mkPager 1 0 100))).1.
Proof.
  apply (X11_Query_does_not_quote_keys
           (mkState "ORDER BY created ASC" (λ _, "A-1,B-2")
              (λ _, helper.mkPager 1 0 100))
           (mkState "ORDER BY created ASC"
              (λ l, if (l =? 1)%positive then "A-1" else "B-2")
              (λ _, helper.mkPager 1 0 100))
           1%positive 1%positive 2%positive 5%positive 5%positive);
    reflexivity.
Defined.

(** ** The shape of the time bound *)

Lemma pretty_N_char_digit (y : N) : json.isDigit (pretty_N_char y) = true.
Proof. unfold pretty_N_char. by repeat case_match. Qed.

Lemma all_digits_append (a b : string) :
  all_digits (a +:+ b) = all_digits a && all_digits b.
Proof.
  induction a as [|c a IH]; [done|].
  rewrite append_cons_eq. simpl. by rewrite IH, andb_assoc.
Qed.

Lemma zeros_digits (n : nat) :
  String.length (Time.zeros n) = n ∧ all_digits (Time.zeros n) = true.
Proof. induction n as [|n [IH1 IH2]]; [done|]. simpl. by rewrite IH1, IH2. Qed.

(** The numeral of a number below 10^n has at most n digits. *)
Lemma pretty_N_go_digits (n : nat) (x : N) (s : string) :
  (x < 10 ^ N.of_nat n)%N →
  ∃ d, pretty_N_go x s = d +:+ s
       ∧ (String.length d ≤ n)%nat ∧ all_digits d = true.
Proof.
  revert x s. induction n as [|n IH]; intros x s Hx.
  - assert (x = 0%N) as -> by (simpl in Hx; lia).
    by exists EmptyString.
  - destruct (decide (x = 0%N)) as [->|Hpos].
    + exists EmptyString. split; [done|]. split; [simpl; lia|done].
    + rewrite pretty_N_go_step by lia.
      destruct (IH (x `div` 10)%N (String (pretty_N_char (x `mod` 10)) s))
        as (d & -> & Hlen & Hd).
      { apply N.Div0.div_lt_upper_bound.
        rewrite Nat2N.inj_succ, N.pow_succ_r' in Hx. lia. }
      exists (d +:+ String (pretty_N_char (x `mod` 10)) EmptyString).
      split; [by rewrite append_assoc_eq|]. split.
      * rewrite length_append. simpl. lia.
      * rewrite all_digits_append, Hd. simpl.
        by rewrite pretty_N_char_digit.
Qed.

Lemma appendInt_digits (width : nat) (x : Z) :
  (1 ≤ width)%nat → 0 ≤ x < 10 ^ Z.of_nat width →
  digits width (Time.appendInt x width) = true.
Proof.
  intros Hw Hx. unfold digits, Time.appendInt.
  assert ((x <? 0) = false) as -> by lia.
  rewrite Z.abs_eq by lia. rewrite append_nil_l.
  assert ((String.length (pretty x) ≤ width)%nat ∧ all_digits (pretty x) = true)
    as [Hlen Hd].
  { destruct x as [|p|p]; [split; [simpl; lia|done]| |lia].
    unfold pretty, pretty_Z, pretty, pretty_positive, pretty, pretty_N.
    destruct (decide (N.pos p = 0%N)) as [|_]; [done|].
    destruct (pretty_N_go_digits width (N.pos p) EmptyString)
      as (d & -> & Hlen & Hd).
    { apply N2Z.inj_lt. rewrite N2Z.inj_pow, nat_N_Z. simpl. lia. }
    by rewrite append_nil_r. }
  destruct (zeros_digits (width - String.length (pretty x))) as [Hz1 Hz2].
  rewrite length_append, Hz1, all_digits_append, Hz2, Hd.
  rewrite andb_true_r. apply Nat.eqb_eq. lia.
Qed.

Lemma pads_to_4 (x : Z) : 0 ≤ x ≤ 9999 → pads_to 4 x = true.
Proof. intros Hx. apply appendInt_digits; [lia|]. simpl. lia. Qed.

Lemma pads_to_2 (x : Z) : 0 ≤ x ≤ 99 → pads_to 2 x = true.
Proof. intros Hx. apply appendInt_digits; [lia|]. simpl. lia. Qed.

Lemma all_digits_quote_free (s : string) :
  all_digits s = true → quote_free s = true.
Proof.
  induction s as [|c s IH]; [done|].
  simpl. intros [Hc Hs]%andb_prop. rewrite IH by done.
  rewrite andb_true_r. apply negb_true_iff.
  destruct (Ascii.eqb_spec c "'") as [->|]; [|done].
  by vm_compute in Hc.
Qed.

Lemma quote_free_append (a b : string) :
  quote_free a = true → quote_free b = true → quote_free (a +:+ b) = true.
Proof.
  induction a as [|c a IH]; [done|].
  rewrite append_cons_eq. simpl.
  intros [Hc Ha]%andb_prop Hb. rewrite Hc. by apply IH.
Qed.

Lemma digits_parts n s :
  digits n s = true → String.length s = n ∧ quote_free s = true.
Proof.
  unfold digits. intros [Hlen%Nat.eqb_eq Hd]%andb_prop.
  split; [done|]. by apply all_digits_quote_free.
Qed.

(** X12: for a since whose fields are those of a date of the years 0 to
    9999, the formatted time is sixteen characters, four digits of year
    and two each of month, day, hour and minute between the separators
    of the layout, with no apostrophe in it; so the time bound of the jql
    is "updated >= '", these sixteen characters, and "' ". *)
Theorem X12_since_format_shape (t : Time.t) (Hrange : in_range t) :
  digits 4 (Time.appendInt (Time.Year t) 4) = true
  ∧ digits 2 (Time.appendInt (Time.Month t) 2) = true
  ∧ digits 2 (Time.appendInt (Time.Day t) 2) = true
  ∧ digits 2 (Time.appendInt (Time.Hour t) 2) = true
  ∧ digits 2 (Time.appendInt (Time.Minute t) 2) = true
  ∧ String.length (Time.Format t) = 16%nat
  ∧ quote_free (Time.Format t) = true
  ∧ String.length (time_bound t) = 30%nat.
Proof.
  destruct Hrange as (Hy & Hmo & Hd & Hh & Hmi).
  pose proof (pads_to_4 (Time.Year t) Hy) as Py.
  pose proof (pads_to_2 (Time.Month t) ltac:(lia)) as Pmo.
  pose proof (pads_to_2 (Time.Day t) ltac:(lia)) as Pd.
  pose proof (pads_to_2 (Time.Hour t) ltac:(lia)) as Ph.
  pose proof (pads_to_2 (Time.Minute t) ltac:(lia)) as Pmi.
  unfold pads_to in *.
  destruct (digits_parts _ _ Py) as [Ly Qy].
  destruct (digits_parts _ _ Pmo) as [Lmo Qmo].
  destruct (digits_parts _ _ Pd) as [Ld Qd].
  destruct (digits_parts _ _ Ph) as [Lh Qh].
  destruct (digits_parts _ _ Pmi) as [Lmi Qmi].
  assert (String.length (Time.Format t) = 16%nat) as Hlen.
  { unfold Time.Format. rewrite !length_append.
    rewrite Ly, Lmo, Ld, Lh, Lmi. reflexivity. }
  repeat split; try done.
  - unfold Time.Format.
    repeat (apply quote_free_append; [done|]). done.
  - unfold time_bound. rewrite !length_append, Hlen. reflexivity.
Qed.

Lemma X12_witness :
  String.length (Time.Format (Time.mk 2022 7 5 9 3)) = 16%nat.
Proof.
  apply (X12_since_format_shape (Time.mk 2022 7 5 9 3)).
  unfold in_range. simpl. lia.
Defined.

(** ** The join of the input query *)



(** ** The members of an object, from text to records *)

Section Members.

Import json.

Lemma split_close_brace (data cur : string) acc :
  cur ≠ EmptyString →
  split ("}" +:+ data) O false false cur acc = (acc ++ [cur])%list.
Proof. by destruct cur. Qed.

Lemma split_members (ms : list string) (rest : string) acc :
  ms ≠ [] → Forall (λ m, element m = true) ms →
  split (Go.Join ms "," +:+ "}" +:+ rest) O false false EmptyString acc
  = (acc ++ ms)%list.
Proof.
  revert acc. induction ms as [|m ms IH]; intros acc Hne Hall; [done|].
  apply Forall_cons in Hall as [Hm Hall].
  assert (m ≠ EmptyString ∧ encloses m O false false = true) as [Hnonempty Henc].
  { destruct m; [done|]. split; [done|]. exact Hm. }
  destruct ms as [|m' ms].
  - change (Go.Join [m] ",") with m.
    rewrite split_encloses by done. rewrite append_nil_l.
    by apply split_close_brace.
  - change (Go.Join (m :: m' :: ms) ",")
      with (m +:+ "," +:+ Go.Join (m' :: ms) ",").
    rewrite !append_assoc_eq. rewrite split_encloses by done.
    rewrite append_nil_l, split_comma.
    rewrite IH by done. by rewrite <- app_assoc.
Qed.

Lemma member_element (kv : string * string) :
  plain_member kv = true → element (member_text kv.1 kv.2) = true.
Proof.
  unfold plain_member. intros [Hk Hv]%andb_prop.
  assert (encloses kv.2 O false false = true) as Henc by (by destruct kv.2).
  unfold member_text, element.
  by rewrite encloses_quote, encloses_plain, encloses_colon.
Qed.

Lemma items_object_text (kvs : list (string * string)) :
  Forall (λ kv, plain_member kv = true) kvs →
  items (object_text kvs) = map (λ kv, member_text kv.1 kv.2) kvs.
Proof.
  intros Hall. unfold object_text.
  rewrite append_cons_eq, append_nil_l. unfold items.
  destruct kvs as [|kv kvs]; [done|].
  pose proof (split_members (map (λ kv, member_text kv.1 kv.2) (kv :: kvs))
                EmptyString [] ltac:(done)) as Hsplit.
  rewrite append_nil_r in Hsplit. apply Hsplit.
  apply Forall_fmap. eapply Forall_impl; [exact Hall|].
  intros kv' Hkv'. by apply member_element.
Qed.

Lemma members_object_text (kvs : list (string * string)) :
  Forall (λ kv, plain_member kv = true) kvs →
  members (object_text kvs) = kvs.
Proof.
  intros Hall. unfold members.
  change (skipSpace (object_text kvs)) with (object_text kvs).
  rewrite items_object_text by done.
  induction Hall as [|[k v] kvs Hkv Hall IH]; [done|].
  simpl. rewrite IH. f_equal.
  apply keyed_member. unfold plain_member in Hkv.
  by apply andb_prop in Hkv as [? ?].
Qed.

End Members.

(** X14: of the members of the object in the body, those not named
    issues are passed over, and of several named issues the last one
    counts.  For a well-formed object whose members named issues (in
    any letter case) hold arrays or null, [ResponseParser] returns the
    elements of the last of them, or nothing when it holds null or when
    there is none. *)
Theorem X14_ResponseParser_last_issues_member (kvs : list (string * string))
    (Hplain : Forall (λ kv, plain_member kv = true) kvs)
    (Hvalid : json.Valid (object_text kvs) = true)
    (Hkinds : Forall (λ kv, isArrayOrNull kv.2 = true) (filter selects kvs)) :
  ResponseParser (response_of (object_text kvs))
  = (match last (filter selects kvs) with
     | Some kv => stored kv.2
     | None => []
     end, None).
Proof.
  unfold response_of.
  rewrite (ResponseParser_bytes 200 _ (object_text kvs));
    [|simpl; by rewrite append_nil_r].
  assert (validForIssues (object_text kvs) = true) as Hv.
  { unfold validForIssues. rewrite Hvalid.
    change (topKind (object_text kvs)) with json.KObject. simpl.
    unfold issuesMembers. rewrite members_object_text by done.
    apply forallb_forall. intros kv Hin.
    apply list_elem_of_In in Hin.
    by apply (proj1 (Forall_forall _ _) Hkinds). }
  rewrite (Unmarshal_valid _ Hv). unfold issuesOf.
  change (topKind (object_text kvs)) with json.KObject.
  unfold issuesMembers. by rewrite members_object_text.
Qed.

Lemma X14_witness :
  ResponseParser
    (response_of
       (object_text [("total", "2"); ("issues", "[1]");
                     ("expand", "null"); ("ISSUES", "[2,3]")]))
  = (["2"; "3"], None).
Proof.
  apply (X14_ResponseParser_last_issues_member
           [("total", "2"); ("issues", "[1]");
            ("expand", "null"); ("ISSUES", "[2,3]")]).
  - repeat constructor.
  - vm_compute. reflexivity.
  - vm_compute. repeat constructor.
Defined.
